(** * nodebb-plugin-aws-s3-upload: a shallow embedding of [library.js]

    The plugin validates an upload (size limit, extension allow-list),
    derives an S3 object key and puts the bytes into the configured
    bucket.  JavaScript values are modelled by the small universe the
    module manipulates, effects (logging, file reads, HTTP, S3) by a
    trace of events, exceptions by an outcome type.  Numbers are the
    integers (byte lengths and a limit in KB, exact in a double below
    2^53), strings are sequences of 8-bit characters. *)

From Stdlib Require Import ZArith List String Ascii Bool Lia Arith.
From Stdlib Require Import Decimal DecimalString DecimalPos DecimalZ.
Import ListNotations.

Local Open Scope list_scope.
Local Open Scope string_scope.

(* ------------------------------------------------------------------ *)
(** ** Strings, as the module uses them *)

Module JsString.

Definition slash : ascii := "/"%char.
Definition dot : ascii := "."%char.

Definition is_slash (c : ascii) : bool := Ascii.eqb c slash.
Definition is_dot (c : ascii) : bool := Ascii.eqb c dot.

(** [s.length > 0], also the truthiness of a string. *)
Definition nonEmpty (s : string) : bool :=
  match s with EmptyString => false | String _ _ => true end.

(** [s.startsWith(p)] *)
Fixpoint startsWith (p s : string) : bool :=
  match p, s with
  | EmptyString, _ => true
  | String c p', String d s' => Ascii.eqb d c && startsWith p' s'
  | String _ _, EmptyString => false
  end.

(** [s.match(/\/$/)]: the last character is a slash. *)
Fixpoint endsWithSlash (s : string) : bool :=
  match s with
  | EmptyString => false
  | String c EmptyString => is_slash c
  | String _ r => endsWithSlash r
  end.

(** [s.replace(/^\//, '')]: one leading slash is removed. *)
Definition stripLeadingSlash (s : string) : string :=
  match s with
  | String c r => if is_slash c then r else s
  | EmptyString => s
  end.

(** [s.endsWith(x)] *)
Fixpoint endsWith (x s : string) : bool :=
  String.eqb x s ||
  match s with
  | EmptyString => false
  | String _ r => endsWith x r
  end.

(** The first character is a slash. *)
Definition leadingSlash (s : string) : bool :=
  match s with String c _ => is_slash c | EmptyString => false end.

(** Some character is a slash. *)
Fixpoint hasSlash (s : string) : bool :=
  match s with
  | EmptyString => false
  | String c r => is_slash c || hasSlash r
  end.

(** Some character is a dot. *)
Fixpoint hasDot (s : string) : bool :=
  match s with
  | EmptyString => false
  | String c r => is_dot c || hasDot r
  end.

(** Two adjacent characters are slashes: [s.includes('//')]. *)
Fixpoint hasDoubleSlash (s : string) : bool :=
  match s with
  | EmptyString => false
  | String c r => (is_slash c && leadingSlash r) || hasDoubleSlash r
  end.

(** [s.includes(x)] *)
Fixpoint includes (x s : string) : bool :=
  startsWith x s ||
  match s with
  | EmptyString => false
  | String _ r => includes x r
  end.

(** [s.toLowerCase()] on 8-bit characters: A..Z are moved to a..z. *)
Definition lowerChar (c : ascii) : ascii :=
  let n := nat_of_ascii c in
  if (65 <=? n)%nat && (n <=? 90)%nat then ascii_of_nat (n + 32) else c.

Fixpoint toLowerCase (s : string) : string :=
  match s with
  | EmptyString => EmptyString
  | String c r => String (lowerChar c) (toLowerCase r)
  end.

(** [xs.join(sep)] *)
Definition join (sep : string) (xs : list string) : string :=
  String.concat sep xs.

(** [xs.includes(x)] on an array of strings. *)
Definition arrayIncludes (x : string) (xs : list string) : bool :=
  existsb (String.eqb x) xs.

(** [s.slice(a, b)] for [0 <= a <= b]. *)
Definition slice (s : string) (a b : nat) : string :=
  String.substring a (b - a) s.

End JsString.
Import JsString.

(* ------------------------------------------------------------------ *)
(** ** JavaScript values and numbers *)

(** The values that reach [parseInt], template literals and
    [path.extname]: [undefined], an integer number, a string, or an
    object the module never looks into. *)
Inductive jsval : Type :=
| VUndefined
| VNum (z : Z)
| VStr (s : string)
| VObject (tag : string).

(** A number that may be [NaN]. *)
Inductive jsnum : Type :=
| NaN
| Num (z : Z).

(** An optional string property: absent ([undefined]) or a string. *)
Definition prop := option string.

Definition truthy (p : prop) : bool :=
  match p with Some s => nonEmpty s | None => false end.

Definition val_of_prop (p : prop) : jsval :=
  match p with Some s => VStr s | None => VUndefined end.

(** [String(v)], as in a template literal. *)
Definition toStr (v : jsval) : string :=
  match v with
  | VUndefined => "undefined"
  | VNum z => NilZero.string_of_int (Z.to_int z)
  | VStr s => s
  | VObject _ => "[object Object]"
  end.

Definition is_digit (c : ascii) : bool :=
  let n := nat_of_ascii c in (48 <=? n)%nat && (n <=? 57)%nat.

(** White space skipped by [parseInt] before the number. *)
Definition is_space (c : ascii) : bool :=
  let n := nat_of_ascii c in
  (n =? 32)%nat || ((9 <=? n)%nat && (n <=? 13)%nat).

Fixpoint skipSpaces (s : string) : string :=
  match s with
  | String c r => if is_space c then skipSpaces r else s
  | EmptyString => s
  end.

(** The longest prefix of decimal digits, most significant first. *)
Fixpoint digitsPrefix (s : string) : uint :=
  match s with
  | EmptyString => Nil
  | String c r =>
      if is_digit c then
        match nat_of_ascii c - 48 with
        | 0 => D0 (digitsPrefix r)
        | 1 => D1 (digitsPrefix r)
        | 2 => D2 (digitsPrefix r)
        | 3 => D3 (digitsPrefix r)
        | 4 => D4 (digitsPrefix r)
        | 5 => D5 (digitsPrefix r)
        | 6 => D6 (digitsPrefix r)
        | 7 => D7 (digitsPrefix r)
        | 8 => D8 (digitsPrefix r)
        | _ => D9 (digitsPrefix r)
        end
      else Nil
  end.

Definition digitsValue (s : string) : jsnum :=
  match digitsPrefix s with
  | Nil => NaN
  | d => Num (Z.of_uint d)
  end.

(** [parseInt(s, 10)] on a string: leading white space, an optional
    sign, then the longest run of digits; [NaN] when there is none. *)
Definition parseIntStr (s : string) : jsnum :=
  match skipSpaces s with
  | EmptyString => NaN
  | String c r =>
      if Ascii.eqb c "-" then
        match digitsValue r with Num z => Num (- z) | NaN => NaN end
      else if Ascii.eqb c "+" then digitsValue r
      else digitsValue (String c r)
  end.

(** [parseInt(v, 10)]: the argument is converted to a string first. *)
Definition parseInt (v : jsval) : jsnum := parseIntStr (toStr v).

(** [a * k] and [n > a] on numbers; every comparison with [NaN] is
    false. *)
Definition numMul (a : jsnum) (k : Z) : jsnum :=
  match a with Num z => Num (z * k) | NaN => NaN end.

Definition numGt (n : Z) (a : jsnum) : bool :=
  match a with Num z => Z.ltb z n | NaN => false end.

(* ------------------------------------------------------------------ *)
(** ** [path.extname] (Node, POSIX paths)

    [path] is Node's own module, not code of the plugin.  This is the
    scan of Node's [path.posix.extname]: the path is read from its
    last character to its first; trailing slashes are skipped, the scan
    stops at the slash before the last path component, and the
    extension runs from the last dot of that component to its end.  A
    component that starts with its only dot, or is [..], has none. *)

Record scan : Type := {
  startDot : option nat;      (* -1 is [None] *)
  startPart : nat;
  endPos : option nat;        (* [end], -1 is [None] *)
  matchedSlash : bool;
  preDotState : Z
}.

Definition scanInit : scan :=
  {| startDot := None; startPart := 0; endPos := None;
     matchedSlash := true; preDotState := 0 |}.

(** The body of the loop at a character that is not a slash. *)
Definition scanChar (i : nat) (c : ascii) (st : scan) : scan :=
  let st1 :=
    match endPos st with
    | None =>
        {| startDot := startDot st; startPart := startPart st;
           endPos := Some (S i); matchedSlash := false;
           preDotState := preDotState st |}
    | Some _ => st
    end in
  if is_dot c then
    match startDot st1 with
    | None =>
        {| startDot := Some i; startPart := startPart st1;
           endPos := endPos st1; matchedSlash := matchedSlash st1;
           preDotState := preDotState st1 |}
    | Some _ =>
        if negb (preDotState st1 =? 1)%Z then
          {| startDot := startDot st1; startPart := startPart st1;
             endPos := endPos st1; matchedSlash := matchedSlash st1;
             preDotState := 1 |}
        else st1
    end
  else
    match startDot st1 with
    | Some _ =>
        {| startDot := startDot st1; startPart := startPart st1;
           endPos := endPos st1; matchedSlash := matchedSlash st1;
           preDotState := (-1) |}
    | None => st1
    end.

(** [for (let i = n - 1; i >= 0; --i)], with its [break]. *)
Fixpoint extnameScan (p : string) (n : nat) (st : scan) : scan :=
  match n with
  | O => st
  | S i =>
      match String.get i p with
      | None => st
      | Some c =>
          if is_slash c then
            if negb (matchedSlash st) then
              {| startDot := startDot st; startPart := S i;
                 endPos := endPos st; matchedSlash := matchedSlash st;
                 preDotState := preDotState st |}
            else extnameScan p i st
          else extnameScan p i (scanChar i c st)
      end
  end.

Definition extname (p : string) : string :=
  let st := extnameScan p (String.length p) scanInit in
  match startDot st, endPos st with
  | Some d, Some e =>
      if (preDotState st =? 0)%Z
         || ((preDotState st =? 1)%Z && (d =? e - 1)%nat
             && (d =? startPart st + 1)%nat)
      then ""
      else slice p d e
  | _, _ => ""
  end.

(* ------------------------------------------------------------------ *)
(** ** Exceptions, events and the monad of one call *)

(** What a [throw] carries: an [Error] object with its [name] and
    [message], or some other value, kept by its string form. *)
Inductive exn : Type :=
| ErrorObj (name message : string)
| ThrownValue (shown : string).

Definition Error (message : string) : exn := ErrorObj "Error" message.
Definition ReferenceError (ident : string) : exn :=
  ErrorObj "ReferenceError" (ident ++ " is not defined").
(** Node's argument check; the message is kept by its error code. *)
Definition TypeError (code : string) : exn := ErrorObj "TypeError" code.

(** [String(e)]: [Error.prototype.toString] on an error object. *)
Definition exnToString (e : exn) : string :=
  match e with
  | ErrorObj name message =>
      if negb (nonEmpty name) then message
      else if negb (nonEmpty message) then name
      else name ++ ": " ++ message
  | ThrownValue shown => shown
  end.

Definition buffer := list Byte.byte.

(** The six settings of the plugin, each a string or absent. *)
Record Settings : Type := {
  accessKeyId : prop;
  secretAccessKey : prop;
  region : prop;
  bucket : prop;
  uploadPath : prop;
  host : prop
}.

(** [new S3.S3Client({region, credentials})] *)
Record S3Client : Type := {
  clientRegion : prop;
  clientAccessKeyId : prop;
  clientSecretAccessKey : prop
}.

(** The parameters of [S3.PutObjectCommand]. *)
Record PutObject : Type := {
  Bucket : prop;
  Key : string;
  Body : buffer;
  ContentLength : nat;
  ContentType : option string
}.

Inductive event : Type :=
| LogError (message : string)                 (* winston.error *)
| ReadFile (path : string)                    (* fs.readFile *)
| HttpGet (url : string)                      (* https.get *)
| Resize (dimension : jsval) (format : string) (* sharp(..).toBuffer() *)
| S3Send (client : S3Client) (cmd : PutObject). (* s3Client.send *)

Inductive outcome (A : Type) : Type :=
| Returned (a : A)
| Thrown (e : exn).
Arguments Returned {A} a.
Arguments Thrown {A} e.

(** A run of an async function: the events it caused, in order, and
    how it ended. *)
Record run (A : Type) : Type := {
  trace : list event;
  result : outcome A
}.
Arguments trace {A} r.
Arguments result {A} r.

Definition ret {A} (a : A) : run A := {| trace := []; result := Returned a |}.
Definition throw {A} (e : exn) : run A := {| trace := []; result := Thrown e |}.
Definition emit (ev : event) : run unit :=
  {| trace := [ev]; result := Returned tt |}.

Definition bind {A B} (m : run A) (k : A -> run B) : run B :=
  match result m with
  | Returned a =>
      let r := k a in
      {| trace := (trace m ++ trace r)%list; result := result r |}
  | Thrown e => {| trace := trace m; result := Thrown e |}
  end.

(** [try { m } catch (err) { h err }] *)
Definition tryCatch {A} (m : run A) (h : exn -> run A) : run A :=
  match result m with
  | Returned _ => m
  | Thrown e =>
      let r := h e in
      {| trace := (trace m ++ trace r)%list; result := result r |}
  end.

Declare Scope run_scope.
Delimit Scope run_scope with run.
Notation "x <- m ;; k" := (bind m (fun x => k))
  (at level 61, m at next level, right associativity) : run_scope.
Notation "m ;; k" := (bind m (fun _ => k))
  (at level 61, right associativity) : run_scope.
Local Open Scope run_scope.

Definition liftSum {A} (r : exn + A) : run A :=
  match r with inl e => throw e | inr a => ret a end.

(** No event of the run touches a file, the network or the store. *)
Definition isIO (ev : event) : bool :=
  match ev with
  | LogError _ => false
  | _ => true
  end.

Definition noIO {A} (r : run A) : Prop :=
  forallb (fun ev => negb (isIO ev)) (trace r) = true.

Definition isThrown {A} (r : run A) : Prop :=
  match result r with Thrown _ => True | Returned _ => False end.

(* ------------------------------------------------------------------ *)
(** ** The host, the libraries and the scope of the module *)

(** What one call observes of its environment: NodeBB's configuration
    and policy, the stored plugin settings, the file system, the token
    of [uuid()], the [mime] table, the S3 service, the remote server
    and the image libraries. *)
Record World : Type := {
  maximumFileSize : jsval;                    (* meta.config.maximumFileSize *)
  allowedExtensions : list string;            (* fileModule.allowedExtensions() *)
  storedSettings : Settings;                  (* meta.settings.get('aws-s3-upload') *)
  fsReadFile : string -> exn + buffer;        (* fs.readFile *)
  uuid : string;                              (* uuid() *)
  mimeGetType : string -> option string;      (* mime.getType *)
  s3Send : S3Client -> PutObject -> option exn;  (* a failure of send, if any *)
  httpsGet : string -> exn + (Z * list buffer);  (* status code and chunks *)
  fileTypeExt : buffer -> option string;      (* type?.ext *)
  sharpResize : buffer -> jsval -> string -> exn + buffer
}.

Definition constants_pluginId : string := "nodebb-plugin-aws-s3-upload".

(** The bindings of the module: its [const] declarations (lines 3-27)
    and the globals of Node it uses. *)
Definition moduleScope : list string :=
  ["S3"; "uuid"; "fs"; "path"; "promisify"; "sharp"; "winston"; "nconf";
   "meta"; "routeHelpers"; "fileModule"; "readFile"; "constants"; "plugin"].

Definition nodeGlobals : list string :=
  ["require"; "module"; "Object"; "Error"; "Promise"; "Buffer"; "parseInt"].

Definition inScope (locals : list string) (x : string) : bool :=
  arrayIncludes x (locals ++ moduleScope ++ nodeGlobals)%list.

(** Reading an identifier.  One that no scope binds throws a
    [ReferenceError]. *)
Definition resolve (locals : list string) (x : string) : run jsval :=
  if inScope locals x then ret (VObject x) else throw (ReferenceError x).

(** [x = v] on an identifier.  The module is in strict mode (line 1):
    assigning to an identifier that no scope binds throws. *)
Definition assign (locals : list string) (x : string) : run unit :=
  if inScope locals x then ret tt else throw (ReferenceError x).

Definition logError (message : string) : run unit := emit (LogError message).

Definition readFile (w : World) (p : string) : run buffer :=
  emit (ReadFile p) ;; liftSum (fsReadFile w p).

(** [path.extname(v)]: Node checks that the argument is a string. *)
Definition path_extname (v : jsval) : run string :=
  match v with
  | VStr s => ret (extname s)
  | _ => throw (TypeError "ERR_INVALID_ARG_TYPE")
  end.

(* ------------------------------------------------------------------ *)
(** ** The plugin *)

(** What an upload returns: [{name, url}], or [undefined]. *)
Inductive retval : Type :=
| RetUndefined
| RetUpload (name : jsval) (url : string).

Record File : Type := {
  f_size : Z;
  f_path : prop;
  f_name : prop
}.

Record Image : Type := {
  i_size : Z;
  i_path : prop;
  i_url : prop;
  i_name : prop;
  i_originalname : prop
}.

Record FileData : Type := { file : option File; f_folder : prop }.
Record ImageData : Type := { image : option Image; i_folder : prop }.

(** The payload of the settings hook: [data.plugin]. *)
Record HookData : Type := { plugin : prop }.

Definition propStr (p : prop) : string :=
  match p with Some s => s | None => "" end.

(** One field of [plugin.reloadSettings]:
    [if (settings.x && settings.x.length) plugin.settings.x = settings.x]. *)
Definition keep (incoming current : prop) : prop :=
  if truthy incoming && nonEmpty (propStr incoming) then incoming else current.

(** [data && data.plugin !== 'aws-s3-upload'] *)
Definition otherPlugin (data : option HookData) : bool :=
  match data with
  | Some d =>
      match plugin d with
      | Some tag => negb (String.eqb tag "aws-s3-upload")
      | None => true
      end
  | None => false
  end.

(** [plugin.reloadSettings], lines 61-86.  [data] is absent when the
    plugin calls it itself (line 49); the incoming values are those of
    [meta.settings.get]. *)
Definition reloadSettings (w : World) (data : option HookData)
    (current : Settings) : Settings :=
  if otherPlugin data then current
  else
    let settings := storedSettings w in
    {| accessKeyId := keep (accessKeyId settings) (accessKeyId current);
       secretAccessKey :=
         keep (secretAccessKey settings) (secretAccessKey current);
       region := keep (region settings) (region current);
       bucket := keep (bucket settings) (bucket current);
       uploadPath := keep (uploadPath settings) (uploadPath current);
       host := keep (host settings) (host current) |}.

(** The text of the size error: logged as it is, thrown inside double
    square brackets. *)
Definition fileTooBig (w : World) : string :=
  "error:file-too-big, " ++ toStr (maximumFileSize w).

(** The size check, lines 97-100 and 150-153 (the same statement in
    [uploadImage] and [uploadFile]):
    [if (x.size > parseInt(meta.config.maximumFileSize, 10) * 1024)]. *)
Definition checkSize (w : World) (size : Z) : run unit :=
  if numGt size (numMul (parseInt (maximumFileSize w)) 1024) then
    logError (fileTooBig w) ;;
    throw (Error ("[[" ++ fileTooBig w ++ "]]"))
  else ret tt.

(** [plugin.isExtensionAllowed], lines 265-271. *)
Definition isExtensionAllowed (filePath : jsval) (allowed : list string)
    : run bool :=
  ext <- path_extname filePath ;;
  let extension := toLowerCase ext in
  ret (negb
         ((0 <? List.length allowed)%nat &&
          (negb (nonEmpty extension) || String.eqb extension "."
           || negb (arrayIncludes extension allowed)))).

Definition invalidFileType (allowed : list string) : exn :=
  Error ("[[error:invalid-file-type, " ++ join "&#44; " allowed ++ "]]").

(** [plugin.constructS3], lines 245-253. *)
Definition constructS3 (settings : Settings) : S3Client :=
  {| clientRegion := region settings;
     clientAccessKeyId := accessKeyId settings;
     clientSecretAccessKey := secretAccessKey settings |}.

(** [plugin.createError], lines 255-263: the error with its message
    prefixed, after the message has been logged. *)
Definition createError (err : exn) : run exn :=
  let err' :=
    match err with
    | ErrorObj name message =>
        ErrorObj name (constants_pluginId ++ " :: " ++ message)
    | ThrownValue shown => Error (constants_pluginId ++ " :: " ++ shown)
    end in
  logError (match err' with ErrorObj _ m => m | ThrownValue s => s end) ;;
  ret err'.

(** Lines 165-175: the upload path with its trailing slash. *)
Definition s3Path (settings : Settings) : string :=
  if truthy (uploadPath settings) && nonEmpty (propStr (uploadPath settings))
  then
    let p := propStr (uploadPath settings) in
    if negb (endsWithSlash p) then p ++ "/" else p
  else "/".

(** Lines 177-181: the key prefix. *)
Definition s3KeyPath (settings : Settings) (folder : prop) : string :=
  let keyPath := stripLeadingSlash (s3Path settings) in
  if truthy folder && nonEmpty (propStr folder)
  then keyPath ++ propStr folder ++ "/"
  else keyPath.

(** Lines 196-202: the host of the public URL. *)
Definition publicHost (settings : Settings) (params : PutObject) : string :=
  let host0 := "https://" ++ toStr (val_of_prop (Bucket params)) in
  if truthy (host settings) && nonEmpty (propStr (host settings)) then
    let h := propStr (host settings) in
    if negb (startsWith "http" h) then "http://" ++ h else h
  else host0.

(** [plugin.uploadToS3], lines 164-211. *)
Definition uploadToS3 (w : World) (settings : Settings)
    (filename : jsval) (folder : prop) (buf : buffer) : run retval :=
  let keyPath := s3KeyPath settings folder in
  let token := uuid w in
  ext <- path_extname filename ;;
  let params :=
    {| Bucket := bucket settings;
       Key := keyPath ++ token ++ ext;
       Body := buf;
       ContentLength := List.length buf;
       ContentType := mimeGetType w (toStr filename) |} in
  tryCatch
    (let s3Client := constructS3 settings in
     emit (S3Send s3Client params) ;;
     match s3Send w s3Client params with
     | Some failure => throw failure
     | None =>
         ret (RetUpload filename
                (publicHost settings params ++ "/" ++ Key params))
     end)
    (fun err =>
       wrapped <- createError err ;;
       throw (Error (exnToString wrapped))).

(** [plugin.downloadAndResizeImage], lines 213-243. *)
Definition downloadLocals : list string :=
  ["url"; "dimension"; "imageBuffer"; "resolve"; "reject"; "response";
   "chunks"; "chunk"; "type"; "format"; "resizedBuffer"].

Definition downloadAndResizeImage (w : World) (url : string)
    (dimension : jsval) : run buffer :=
  resolve downloadLocals "https" ;;
  emit (HttpGet url) ;;
  imageBuffer <-
    match httpsGet w url with
    | inl failure => throw failure
    | inr (statusCode, chunks) =>
        if negb (statusCode =? 200)%Z then
          throw (Error ("Failed to fetch image. Status: "
                        ++ toStr (VNum statusCode)))
        else ret (List.concat chunks)
    end ;;
  let format :=
    match fileTypeExt w imageBuffer with
    | Some ext => ext
    | None => "jpeg"
    end in
  emit (Resize dimension format) ;;
  liftSum (sharpResize w imageBuffer dimension format).

(** [plugin.uploadImage], lines 88-136. *)
Definition imageLocals : list string :=
  ["data"; "image"; "folder"; "type"; "allowed"; "nameToCheck"; "buffer"].

Definition uploadImage (w : World) (settings : Settings) (data : ImageData)
    : run retval :=
  let folder := i_folder data in
  match image data with
  | None =>
      logError "invalid image" ;;
      resolve imageLocals "callback" ;;
      ret RetUndefined
  | Some image =>
      checkSize w (i_size image) ;;
      let type := if truthy (i_url image) then "url" else "file" in
      let allowed := allowedExtensions w in
      if String.eqb type "file" then
        if negb (truthy (i_path image)) then
          throw (Error "Invalid image path")
        else
          nameToCheck <-
            (if truthy (i_originalname image)
             then ret (val_of_prop (i_originalname image))
             else assign imageLocals "name" ;; ret VUndefined) ;;
          ok <- isExtensionAllowed nameToCheck allowed ;;
          if negb ok then throw (invalidFileType allowed)
          else
            buf <- readFile w (propStr (i_path image)) ;;
            uploadToS3 w settings (val_of_prop (i_name image)) folder buf
      else
        ok <- isExtensionAllowed (val_of_prop (i_url image)) allowed ;;
        if negb ok then throw (invalidFileType allowed)
        else
          imageDimension <- resolve imageLocals "imageDimension" ;;
          buf <- downloadAndResizeImage w (propStr (i_url image))
                   imageDimension ;;
          filename <- resolve imageLocals "filename" ;;
          uploadToS3 w settings filename folder buf
  end.

(** [plugin.uploadFile], lines 138-162. *)
Definition uploadFile (w : World) (settings : Settings) (data : FileData)
    : run retval :=
  let folder := f_folder data in
  match file data with
  | None => throw (Error "invalid file")
  | Some file =>
      if negb (truthy (f_path file)) then throw (Error "invalid file path")
      else
        checkSize w (f_size file) ;;
        let allowed := allowedExtensions w in
        ok <- isExtensionAllowed (val_of_prop (f_path file)) allowed ;;
        if negb ok then throw (invalidFileType allowed)
        else
          buf <- readFile w (propStr (f_path file)) ;;
          uploadToS3 w settings (val_of_prop (f_name file)) folder buf
  end.


(* ------------------------------------------------------------------ *)
(** ** Vocabulary of the properties *)

(** The run that ends at the size check: the limit is logged and the
    templated error is thrown. *)
Definition fileTooLarge (w : World) : run retval :=
  {| trace := [LogError (fileTooBig w)];
     result := Thrown (Error ("[[" ++ fileTooBig w ++ "]]")) |}.

(** The object keys a run sent to the store. *)
Fixpoint sentKeys (evs : list event) : list string :=
  match evs with
  | [] => []
  | S3Send _ cmd :: rest => Key cmd :: sentKeys rest
  | _ :: rest => sentKeys rest
  end.

(** The six fields of the settings. *)
Inductive field : Type :=
| AccessKeyId | SecretAccessKey | Region | BucketName | UploadPath | Host.

Definition get (f : field) (s : Settings) : prop :=
  match f with
  | AccessKeyId => accessKeyId s
  | SecretAccessKey => secretAccessKey s
  | Region => region s
  | BucketName => bucket s
  | UploadPath => uploadPath s
  | Host => host s
  end.



(** The command [uploadToS3] sends for a file name that is a string. *)
Definition putCommand (w : World) (st : Settings) (filename : string)
    (folder : prop) (buf : buffer) : PutObject :=
  {| Bucket := bucket st;
     Key := s3KeyPath st folder ++ uuid w ++ extname filename;
     Body := buf;
     ContentLength := List.length buf;
     ContentType := mimeGetType w filename |}.

(** The message [createError] builds from an original message. *)
Definition idPrefixed (original : string) : string :=
  constants_pluginId ++ " :: " ++ original.

(** The original message of what the store threw: [err.message] of an
    error, the value itself otherwise. *)
Definition originalMessage (e : exn) : string :=
  match e with ErrorObj _ m => m | ThrownValue v => v end.

(** The name of the error [createError] returns. *)
Definition wrappedName (e : exn) : string :=
  match e with ErrorObj n _ => n | ThrownValue _ => "Error" end.

(** In the words of the specification: a host override has a scheme
    when it has the form [scheme://...]. *)
Definition specHasScheme (h : string) : bool := includes "://" h.





(* ------------------------------------------------------------------ *)
(** ** A concrete host, for the examples *)

Module Sample.

Definition settings : Settings :=
  {| accessKeyId := Some "AKIAEXAMPLE";
     secretAccessKey := Some "secret";
     region := Some "eu-central-1";
     bucket := Some "forum-assets";
     uploadPath := Some "/uploads";
     host := None |}.

(** The stored settings of the example in the specification:
    [{bucket: '', region: 'us-east-1'}]. *)
Definition stored : Settings :=
  {| accessKeyId := None;
     secretAccessKey := None;
     region := Some "us-east-1";
     bucket := Some "";
     uploadPath := None;
     host := None |}.

(** A host with a limit of 1024 KB, two allowed extensions, a store
    that accepts every object and a remote server that answers 404. *)
Definition world : World :=
  {| maximumFileSize := VNum 1024;
     allowedExtensions := [".png"; ".jpg"];
     storedSettings := stored;
     fsReadFile := fun _ => inr [];
     uuid := "1b9d6bcd-bbfd-4b2d-9b5d-ab8dfbbd4bed";
     mimeGetType := fun _ => Some "image/png";
     s3Send := fun _ _ => None;
     httpsGet := fun _ => inr (404%Z, []);
     fileTypeExt := fun _ => None;
     sharpResize := fun buf _ _ => inr buf |}.

(** The same host with a store that refuses the object. *)
Definition refusing (failure : exn) : World :=
  {| maximumFileSize := maximumFileSize world;
     allowedExtensions := allowedExtensions world;
     storedSettings := storedSettings world;
     fsReadFile := fsReadFile world;
     uuid := uuid world;
     mimeGetType := mimeGetType world;
     s3Send := fun _ _ => Some failure;
     httpsGet := httpsGet world;
     fileTypeExt := fileTypeExt world;
     sharpResize := sharpResize world |}.

(** The same host without an allow-list. *)
Definition unrestricted : World :=
  {| maximumFileSize := maximumFileSize world;
     allowedExtensions := [];
     storedSettings := storedSettings world;
     fsReadFile := fsReadFile world;
     uuid := uuid world;
     mimeGetType := mimeGetType world;
     s3Send := s3Send world;
     httpsGet := httpsGet world;
     fileTypeExt := fileTypeExt world;
     sharpResize := sharpResize world |}.

Definition withPath (path : string) : Settings :=
  {| accessKeyId := accessKeyId settings;
     secretAccessKey := secretAccessKey settings;
     region := region settings;
     bucket := bucket settings;
     uploadPath := Some path;
     host := host settings |}.

Definition withHost (override : string) : Settings :=
  {| accessKeyId := accessKeyId settings;
     secretAccessKey := secretAccessKey settings;
     region := region settings;
     bucket := bucket settings;
     uploadPath := uploadPath settings;
     host := Some override |}.

Definition photo : File :=
  {| f_size := 500; f_path := Some "/tmp/photo.png";
     f_name := Some "photo.png" |}.

(** A local image whose temporary path has no extension and that
    carries no original name. *)
Definition avatar : Image :=
  {| i_size := 500; i_path := Some "/tmp/upload_3f2a"; i_url := None;
     i_name := Some "avatar.png"; i_originalname := None |}.

(** A remote image. *)
Definition remote : Image :=
  {| i_size := 0; i_path := None;
     i_url := Some "https://example.org/pic.png";
     i_name := None; i_originalname := None |}.

End Sample.

(* ------------------------------------------------------------------ *)
(** ** Start-up *)

(** [plugin.settings] as the module creates it, lines 27-36:
    [nconf.get('s3')] when the configuration file has it, the six
    empty strings otherwise. *)
Definition defaultSettings : Settings :=
  {| accessKeyId := Some ""; secretAccessKey := Some "";
     region := Some ""; bucket := Some "";
     uploadPath := Some ""; host := Some "" |}.

Definition initialSettings (nconf_s3 : option Settings) : Settings :=
  match nconf_s3 with
  | Some s3 => s3
  | None => defaultSettings
  end.

(** [plugin.init], lines 38-50: the admin page is registered at its
    route, then the settings are reloaded, without hook data.  The
    result is the route registered and the settings in force. *)
Definition init (w : World) (current : Settings) : string * Settings :=
  ("/admin/plugins/aws-s3-upload", reloadSettings w None current).

(* ------------------------------------------------------------------ *)
(** ** Vocabulary of the further properties *)

(** How many commands a run sent to the store, how many files it
    read. *)
Fixpoint countSends (evs : list event) : nat :=
  match evs with
  | [] => 0
  | S3Send _ _ :: rest => S (countSends rest)
  | _ :: rest => countSends rest
  end.

Fixpoint countReads (evs : list event) : nat :=
  match evs with
  | [] => 0
  | ReadFile _ :: rest => S (countReads rest)
  | _ :: rest => countReads rest
  end.



(** A file as [uploadImage] sees a local image. *)
Definition fileOfImage (i : Image) : File :=
  {| f_size := i_size i; f_path := i_path i; f_name := i_name i |}.

(** The folder part of a key: the folder and a slash, or nothing. *)
Definition folderPart (folder : prop) : string :=
  if nonEmpty (propStr folder) then propStr folder ++ "/" else "".

(** The ways [uploadFile] ends before it reads the file. *)
Inductive refusal (w : World) (data : FileData) : run retval -> Prop :=
| RefuseNoFile :
    file data = None ->
    refusal w data (throw (Error "invalid file"))
| RefuseNoPath f :
    file data = Some f -> truthy (f_path f) = false ->
    refusal w data (throw (Error "invalid file path"))
| RefuseSize f :
    file data = Some f -> truthy (f_path f) = true ->
    checkSize w (f_size f) <> ret tt ->
    refusal w data (fileTooLarge w)
| RefuseExtension f p :
    file data = Some f -> f_path f = Some p -> p <> "" ->
    checkSize w (f_size f) = ret tt ->
    isExtensionAllowed (VStr p) (allowedExtensions w) = ret false ->
    refusal w data (throw (invalidFileType (allowedExtensions w))).

(** Further concrete hosts and inputs. *)
Module Cases.



(** A host whose allow-list is written in capitals. *)
Definition capitals : World :=
  {| maximumFileSize := maximumFileSize Sample.world;
     allowedExtensions := [".PNG"; ".JPG"];
     storedSettings := storedSettings Sample.world;
     fsReadFile := fsReadFile Sample.world;
     uuid := uuid Sample.world;
     mimeGetType := mimeGetType Sample.world;
     s3Send := s3Send Sample.world;
     httpsGet := httpsGet Sample.world;
     fileTypeExt := fileTypeExt Sample.world;
     sharpResize := sharpResize Sample.world |}.

(** A host that draws another token. *)
Definition otherToken : World :=
  {| maximumFileSize := maximumFileSize Sample.world;
     allowedExtensions := allowedExtensions Sample.world;
     storedSettings := storedSettings Sample.world;
     fsReadFile := fsReadFile Sample.world;
     uuid := "9c5b94b1-35ad-49bb-b118-8e8fc24abf80";
     mimeGetType := mimeGetType Sample.world;
     s3Send := s3Send Sample.world;
     httpsGet := httpsGet Sample.world;
     fileTypeExt := fileTypeExt Sample.world;
     sharpResize := sharpResize Sample.world |}.

(** A host whose disk fails. *)
Definition unreadable : World :=
  {| maximumFileSize := maximumFileSize Sample.world;
     allowedExtensions := allowedExtensions Sample.world;
     storedSettings := storedSettings Sample.world;
     fsReadFile := fun _ => inl (ErrorObj "Error" "ENOENT");
     uuid := uuid Sample.world;
     mimeGetType := mimeGetType Sample.world;
     s3Send := s3Send Sample.world;
     httpsGet := httpsGet Sample.world;
     fileTypeExt := fileTypeExt Sample.world;
     sharpResize := sharpResize Sample.world |}.

(** A host whose stored settings are complete. *)
Definition complete : Settings :=
  {| accessKeyId := Some "AKIASTORED";
     secretAccessKey := Some "stored-secret";
     region := Some "us-east-1";
     bucket := Some "stored-bucket";
     uploadPath := Some "/media";
     host := Some "https://cdn.example.org" |}.

Definition configured : World :=
  {| maximumFileSize := maximumFileSize Sample.world;
     allowedExtensions := allowedExtensions Sample.world;
     storedSettings := complete;
     fsReadFile := fsReadFile Sample.world;
     uuid := uuid Sample.world;
     mimeGetType := mimeGetType Sample.world;
     s3Send := s3Send Sample.world;
     httpsGet := httpsGet Sample.world;
     fileTypeExt := fileTypeExt Sample.world;
     sharpResize := sharpResize Sample.world |}.

(** A file that carries no name. *)
Definition nameless : File :=
  {| f_size := 500; f_path := Some "/tmp/photo.png"; f_name := None |}.

(** A local image with its original name. *)
Definition named : Image :=
  {| i_size := 500; i_path := Some "/tmp/upload_3f2a"; i_url := None;
     i_name := Some "avatar.png"; i_originalname := Some "Avatar.PNG" |}.

End Cases.

(* ------------------------------------------------------------------ *)
(** ** Laws of the monad *)

Lemma bind_ret {A B} (a : A) (k : A -> run B) : bind (ret a) k = k a.
Proof. unfold bind; simpl; destruct (k a); reflexivity. Qed.

Lemma bind_throw {A B} (e : exn) (k : A -> run B) : bind (throw e) k = throw e.
Proof. reflexivity. Qed.

(** ** [parseInt] reads back the decimal form of an integer *)





(* ------------------------------------------------------------------ *)
(** ** The size check *)




Lemma isExtensionAllowed_str (p : string) (allowed : list string) :
  isExtensionAllowed (VStr p) allowed =
    ret (negb
           ((0 <? List.length allowed)%nat &&
            (negb (nonEmpty (toLowerCase (extname p)))
             || String.eqb (toLowerCase (extname p)) "."
             || negb (arrayIncludes (toLowerCase (extname p)) allowed)))).
Proof. reflexivity. Qed.

Lemma truthy_some (p : prop) :
  truthy p = true -> exists s, p = Some s /\ nonEmpty s = true.
Proof. destruct p as [s|]; simpl; [eauto | discriminate]. Qed.





(* ------------------------------------------------------------------ *)
(** ** The extension check *)

Lemma nonEmpty_true (s : string) : nonEmpty s = true <-> s <> "".
Proof. destruct s; simpl; split; congruence. Qed.

Lemma arrayIncludes_In (x : string) (xs : list string) :
  arrayIncludes x xs = true <-> In x xs.
Proof.
  unfold arrayIncludes; rewrite existsb_exists; split.
  - intros (y & Hy & E); apply String.eqb_eq in E; subst; assumption.
  - intros H; exists x; split; [assumption | apply String.eqb_refl].
Qed.

Lemma ret_inj {A} (a b : A) : ret a = ret b <-> a = b.
Proof. split; [intros H; injection H; trivial | intros ->; reflexivity]. Qed.

Lemma allowed_bool_spec (e : string) (A : list string) :
  negb ((0 <? List.length A)%nat &&
        (negb (nonEmpty e) || String.eqb e "." || negb (arrayIncludes e A)))
  = true
  <-> A = [] \/ (e <> "" /\ e <> "." /\ In e A).
Proof.
  rewrite negb_true_iff, andb_false_iff, !orb_false_iff, !negb_false_iff.
  rewrite nonEmpty_true, arrayIncludes_In, String.eqb_neq.
  destruct A as [|a A]; simpl; split; intros H.
  - left; reflexivity.
  - left; reflexivity.
  - destruct H as [H | [[H1 H2] H3]]; [discriminate | right; auto].
  - destruct H as [H | (H1 & H2 & H3)]; [discriminate | right; auto].
Qed.


(* ------------------------------------------------------------------ *)
(** ** Reloading the settings *)





(* ------------------------------------------------------------------ *)
(** ** Missing input *)

(** [uploadFile] rejects a missing file and a file without a path
    before anything else happens. *)
Lemma uploadFile_invalid_input (w : World) (st : Settings) (data : FileData) :
  (file data = None -> uploadFile w st data = throw (Error "invalid file"))
  /\ (forall f, file data = Some f -> truthy (f_path f) = false ->
        uploadFile w st data = throw (Error "invalid file path")).
Proof.
  unfold uploadFile; split.
  - intros ->; reflexivity.
  - intros f -> Hp; rewrite Hp; reflexivity.
Qed.

(** C6.  [uploadImage] without an image logs [invalid image] and then
    evaluates [callback], which no scope binds: the call ends with the
    [ReferenceError] of that identifier, not with the [invalid image]
    error it was about to build.  Nothing is read, fetched or stored. *)
Theorem uploadImage_missing_image (w : World) (st : Settings) (folder : prop) :
  uploadImage w st {| image := None; i_folder := folder |}
    = {| trace := [LogError "invalid image"];
         result := Thrown (ReferenceError "callback") |}
  /\ ReferenceError "callback" <> Error "invalid image"
  /\ noIO (uploadImage w st {| image := None; i_folder := folder |}).
Proof. repeat split; discriminate. Qed.

(* ------------------------------------------------------------------ *)
(** ** The remote branch *)

(** C7.  [downloadAndResizeImage] evaluates [https], which the module
    never imports: for every URL the call ends with the
    [ReferenceError] of that identifier before a GET is issued,
    whatever the remote server would have answered. *)
Theorem downloadAndResizeImage_never_fetches (w : World) (url : string)
    (dimension : jsval) :
  downloadAndResizeImage w url dimension = throw (ReferenceError "https")
  /\ inScope downloadLocals "https" = false.
Proof. split; reflexivity. Qed.

Lemma checkSize_cases (w : World) (L : Z) :
  checkSize w L = ret tt
  \/ checkSize w L =
       {| trace := [LogError (fileTooBig w)];
          result := Thrown (Error ("[[" ++ fileTooBig w ++ "]]")) |}.
Proof.
  unfold checkSize.
  destruct (numGt L (numMul (parseInt (maximumFileSize w)) 1024));
    [right | left]; reflexivity.
Qed.

(** C10.  An [uploadImage] call on a remote URL always ends with a
    thrown error and touches neither the file system, the network nor
    the store: past the size and extension checks it evaluates
    [imageDimension], which no scope binds, as no scope binds
    [filename] and [https]; so no such call stores an object or
    returns a URL. *)
Theorem uploadImage_url_never_uploads (w : World) (st : Settings) (i : Image)
    (folder : prop) :
  truthy (i_url i) = true ->
  let r := uploadImage w st {| image := Some i; i_folder := folder |} in
  isThrown r /\ noIO r /\ sentKeys (trace r) = []
  /\ (checkSize w (i_size i) = ret tt ->
      isExtensionAllowed (val_of_prop (i_url i)) (allowedExtensions w)
        = ret true ->
      r = throw (ReferenceError "imageDimension"))
  /\ inScope imageLocals "imageDimension" = false
  /\ inScope imageLocals "filename" = false
  /\ inScope downloadLocals "https" = false.
Proof.
  intros Hu; cbv zeta; unfold uploadImage; cbn [image i_folder].
  rewrite Hu; cbn [String.eqb Ascii.eqb Bool.eqb].
  destruct (truthy_some _ Hu) as (u & Eu & _); rewrite Eu; simpl val_of_prop.
  rewrite isExtensionAllowed_str.
  match goal with |- context [ret (negb ?b)] => set (rejected := b) end.
  repeat split.
  - destruct (checkSize_cases w (i_size i)) as [-> | ->];
      [rewrite !bind_ret; destruct rejected|]; exact I.
  - destruct (checkSize_cases w (i_size i)) as [-> | ->];
      [rewrite !bind_ret; destruct rejected|]; reflexivity.
  - destruct (checkSize_cases w (i_size i)) as [-> | ->];
      [rewrite !bind_ret; destruct rejected|]; reflexivity.
  - intros -> Hok; rewrite !bind_ret.
    injection Hok as Hok; rewrite Hok; reflexivity.
Qed.

(** C9, as the code has it.  An [uploadImage] call on a local file
    without an original name always ends with a thrown error and reads
    no file and stores nothing, whatever the allow-list: past the size
    check and the path check it assigns [image.path] to [name], which
    no scope binds, and strict mode turns that assignment into a
    [ReferenceError]; the extension check is not reached. *)
Theorem uploadImage_local_without_originalname (w : World) (st : Settings)
    (i : Image) (folder : prop) :
  truthy (i_url i) = false ->
  truthy (i_originalname i) = false ->
  let r := uploadImage w st {| image := Some i; i_folder := folder |} in
  isThrown r /\ noIO r /\ sentKeys (trace r) = []
  /\ (checkSize w (i_size i) = ret tt -> truthy (i_path i) = true ->
      r = throw (ReferenceError "name"))
  /\ inScope imageLocals "name" = false.
Proof.
  intros Hu Ho; cbv zeta; unfold uploadImage; cbn [image i_folder].
  rewrite Hu, Ho; cbn [String.eqb Ascii.eqb Bool.eqb].
  repeat split.
  - destruct (checkSize_cases w (i_size i)) as [-> | ->];
      [rewrite !bind_ret; destruct (truthy (i_path i))|]; exact I.
  - destruct (checkSize_cases w (i_size i)) as [-> | ->];
      [rewrite !bind_ret; destruct (truthy (i_path i))|]; reflexivity.
  - destruct (checkSize_cases w (i_size i)) as [-> | ->];
      [rewrite !bind_ret; destruct (truthy (i_path i))|]; reflexivity.
  - intros -> ->; rewrite !bind_ret; reflexivity.
Qed.

(* ------------------------------------------------------------------ *)
(** ** Slashes in concatenations *)

Section Slashes.

Implicit Types a b s x : string.

Lemma endsWith_refl x : endsWith x x = true.
Proof.
  destruct x; simpl; [reflexivity|].
  rewrite Ascii.eqb_refl, String.eqb_refl; reflexivity.
Qed.

Lemma endsWith_app a x : endsWith x (a ++ x) = true.
Proof.
  induction a as [|c a IH]; simpl.
  - apply endsWith_refl.
  - rewrite IH; apply orb_true_r.
Qed.


Lemma endsWithSlash_app a b :
  endsWithSlash (a ++ b) = if nonEmpty b then endsWithSlash b else endsWithSlash a.
Proof.
  induction a as [|c a IH]; simpl.
  - destruct b; reflexivity.
  - destruct (a ++ b) eqn:E.
    + destruct a; [|discriminate]. simpl in E; subst b; reflexivity.
    + rewrite IH. destruct b; [|reflexivity].
      simpl. destruct a; [discriminate|reflexivity].
Qed.




Lemma noSlash_ends s : hasSlash s = false -> endsWithSlash s = false.
Proof.
  induction s as [|c s IH]; simpl; [reflexivity|]; intros H.
  apply orb_false_iff in H; destruct H as [Hc Hs].
  destruct s; [assumption | apply IH, Hs].
Qed.




Lemma double_starts s : hasDoubleSlash s = false -> startsWith "//" s = false.
Proof.
  destruct s as [|c [|c' s]]; simpl; rewrite ?andb_false_r, ?andb_true_r;
    try reflexivity.
  fold slash; fold (is_slash c); fold (is_slash c').
  intros H; apply orb_false_iff in H; tauto.
Qed.

End Slashes.

(* ------------------------------------------------------------------ *)
(** ** The extension holds no slash *)

Section ExtnameScan.

Variable p : string.




Lemma scanChar_endPos (i : nat) (c : ascii) (st : scan) :
  endPos (scanChar i c st)
  = match endPos st with None => Some (S i) | Some e => Some e end.
Proof.
  unfold scanChar; destruct (endPos st) eqn:E, (is_dot c), (startDot st);
    try destruct (negb _); simpl; rewrite ?E; reflexivity.
Qed.


Lemma scanChar_startDot (i : nat) (c : ascii) (st : scan) :
  startDot (scanChar i c st)
  = match startDot st with
    | Some d => Some d
    | None => if is_dot c then Some i else None
    end.
Proof.
  unfold scanChar; destruct (endPos st), (is_dot c), (startDot st) eqn:D;
    try destruct (negb _); simpl; rewrite ?D; reflexivity.
Qed.



End ExtnameScan.




(** ** Paths without an extension *)

Lemma hasDot_get (s : string) (j : nat) (c : ascii) :
  hasDot s = false -> String.get j s = Some c -> is_dot c = false.
Proof.
  revert j; induction s as [|x s IH]; intros j H Hg; [discriminate|].
  simpl in H; apply orb_false_iff in H; destruct H as [Hx Hs].
  destruct j as [|j]; simpl in Hg.
  - injection Hg as <-; exact Hx.
  - exact (IH j Hs Hg).
Qed.

Lemma extnameScan_no_dot (p : string) (n : nat) (st : scan) :
  hasDot p = false -> startDot st = None ->
  startDot (extnameScan p n st) = None.
Proof.
  intros Hp; revert st; induction n as [|i IH]; intros st Hd; simpl;
    [assumption|].
  destruct (String.get i p) as [c|] eqn:Hg; [|assumption].
  destruct (is_slash c).
  - destruct (negb (matchedSlash st)); [assumption | apply IH, Hd].
  - apply IH; rewrite scanChar_startDot, Hd, (hasDot_get p i c Hp Hg).
    reflexivity.
Qed.

(** A path without a dot has no extension. *)
Lemma extname_no_dot (p : string) : hasDot p = false -> extname p = "".
Proof.
  intros Hp; unfold extname.
  rewrite (extnameScan_no_dot p _ scanInit Hp eq_refl); reflexivity.
Qed.

Lemma extnameScan_keeps (p : string) (n : nat) (st : scan) (d e : nat) :
  startDot st = Some d -> endPos st = Some e ->
  startDot (extnameScan p n st) = Some d
  /\ endPos (extnameScan p n st) = Some e.
Proof.
  revert st; induction n as [|i IH]; intros st Hd He; simpl; [auto|].
  destruct (String.get i p) as [c|]; [|auto].
  destruct (is_slash c).
  - destruct (negb (matchedSlash st)); [auto | apply IH; assumption].
  - apply IH; [rewrite scanChar_startDot, Hd | rewrite scanChar_endPos, He];
      reflexivity.
Qed.

Lemma get_last (q : string) (c : ascii) :
  String.get (String.length q) (q ++ String c "") = Some c.
Proof. induction q as [|x q IH]; simpl; [reflexivity | exact IH]. Qed.

Lemma length_last (q : string) (c : ascii) :
  String.length (q ++ String c "") = S (String.length q).
Proof. induction q as [|x q IH]; simpl; [|rewrite IH]; reflexivity. Qed.

Lemma slice_last (q : string) (c : ascii) :
  slice (q ++ String c "") (String.length q) (S (String.length q))
  = String c "".
Proof.
  unfold slice; replace (S (String.length q) - String.length q) with 1 by lia.
  induction q as [|x q IH]; simpl; [reflexivity | exact IH].
Qed.

(** A path that ends in a dot has the bare dot for extension, or
    none. *)
Lemma extname_trailing_dot (q : string) :
  extname (q ++ ".") = "." \/ extname (q ++ ".") = "".
Proof.
  unfold extname; rewrite length_last; simpl extnameScan.
  rewrite get_last; change (is_slash ".") with false; cbv iota.
  destruct (extnameScan_keeps (q ++ ".") (String.length q)
              (scanChar (String.length q) "." scanInit)
              (String.length q) (S (String.length q)) eq_refl eq_refl)
    as (-> & ->).
  match goal with |- context [if ?b then _ else _] => destruct b end;
    [right; reflexivity | left; apply slice_last].
Qed.

(** With an allow-list configured, a path without a dot and a path
    that ends in a dot are rejected. *)
Lemma isExtensionAllowed_edge (p : string) (A : list string) :
  A <> [] ->
  hasDot p = false \/ (exists q, p = q ++ ".") ->
  isExtensionAllowed (VStr p) A = ret false.
Proof.
  intros HA Hp; rewrite isExtensionAllowed_str; apply ret_inj.
  apply not_true_iff_false; rewrite allowed_bool_spec.
  intros [E | (Hne & Hd & _)]; [contradiction|].
  destruct Hp as [Hp | (q & ->)].
  - rewrite (extname_no_dot p Hp) in Hne; apply Hne; reflexivity.
  - destruct (extname_trailing_dot q) as [E | E]; rewrite E in *;
      [apply Hd | apply Hne]; reflexivity.
Qed.

(* ------------------------------------------------------------------ *)
(** ** The upload to the store *)

(** [uploadToS3] on a file name that is a string: one command is sent;
    when the store accepts it the result carries the public URL, when
    the store fails the failure goes through [createError] and is
    thrown again inside a new [Error]. *)
Lemma uploadToS3_str (w : World) (st : Settings) (filename : string)
    (folder : prop) (buf : buffer) :
  let cmd := putCommand w st filename folder buf in
  uploadToS3 w st (VStr filename) folder buf
  = match s3Send w (constructS3 st) cmd with
    | None =>
        {| trace := [S3Send (constructS3 st) cmd];
           result := Returned (RetUpload (VStr filename)
                                 (publicHost st cmd ++ "/" ++ Key cmd)) |}
    | Some failure =>
        {| trace := [S3Send (constructS3 st) cmd;
                     LogError (idPrefixed (originalMessage failure))];
           result :=
             Thrown (Error (exnToString
                              (ErrorObj (wrappedName failure)
                                 (idPrefixed (originalMessage failure))))) |}
    end.
Proof.
  cbv zeta; unfold uploadToS3; simpl path_extname; rewrite bind_ret.
  unfold putCommand; cbn [toStr].
  match goal with
  | |- context [s3Send w (constructS3 st) ?c] => generalize c
  end.
  intros cmd; destruct (s3Send w (constructS3 st) cmd) as [[name message | shown]|];
    reflexivity.
Qed.

Lemma append_empty (s : string) : s ++ "" = s.
Proof. induction s as [|c s IH]; simpl; [|rewrite IH]; reflexivity. Qed.

(** The key prefix is the stripped upload path, followed by the folder
    and a slash when there is a folder. *)
Lemma s3KeyPath_shape (st : Settings) (folder : prop) :
  s3KeyPath st folder
  = stripLeadingSlash (s3Path st)
    ++ (if nonEmpty (propStr folder) then propStr folder ++ "/" else "").
Proof.
  unfold s3KeyPath; destruct folder as [[|c f]|]; simpl;
    rewrite ?append_empty; reflexivity.
Qed.

Lemma append_assoc (a b c : string) : (a ++ b) ++ c = a ++ b ++ c.
Proof. induction a as [|x a IH]; simpl; [|rewrite IH]; reflexivity. Qed.










(* ------------------------------------------------------------------ *)
(** ** The public URL *)

Lemma publicHost_default (st : Settings) (cmd : PutObject) :
  truthy (host st) = false ->
  publicHost st cmd = "https://" ++ toStr (val_of_prop (Bucket cmd)).
Proof. unfold publicHost; intros ->; reflexivity. Qed.

Lemma publicHost_override (st : Settings) (cmd : PutObject) (h : string) :
  host st = Some h -> h <> "" ->
  publicHost st cmd = if startsWith "http" h then h else "http://" ++ h.
Proof.
  unfold publicHost; intros -> Hne; cbn [truthy propStr].
  apply nonEmpty_true in Hne; rewrite Hne; cbn [andb].
  destruct (startsWith "http" h); reflexivity.
Qed.

(** C4, as the code has it.  When the store accepts the object,
    [uploadToS3] returns the file name and a URL: without a host
    override the URL is [https://<bucket>/<key>]; with an override it
    is [<override>/<key>], with [http://] put in front exactly when the
    override does not begin with the four characters [http], and the
    override left as it is when it does. *)
Theorem uploadToS3_public_url (w : World) (st : Settings) (filename : string)
    (folder : prop) (buf : buffer) :
  s3Send w (constructS3 st) (putCommand w st filename folder buf) = None ->
  let key := s3KeyPath st folder ++ uuid w ++ extname filename in
  exists url,
    result (uploadToS3 w st (VStr filename) folder buf)
      = Returned (RetUpload (VStr filename) url)
    /\ (forall b, bucket st = Some b -> truthy (host st) = false ->
        url = "https://" ++ b ++ "/" ++ key)
    /\ (forall h, host st = Some h -> h <> "" ->
        startsWith "http" h = false ->
        url = "http://" ++ h ++ "/" ++ key)
    /\ (forall h, host st = Some h -> h <> "" ->
        startsWith "http" h = true ->
        url = h ++ "/" ++ key).
Proof.
  intros Hok; cbv zeta; rewrite uploadToS3_str; cbv zeta; rewrite Hok.
  eexists; split; [reflexivity|]; repeat split.
  - intros b Hb Hh; rewrite (publicHost_default _ _ Hh).
    unfold putCommand; cbn [Bucket Key]; rewrite Hb; cbn [val_of_prop toStr].
    rewrite !append_assoc; reflexivity.
  - intros h Hh Hne Hs; rewrite (publicHost_override _ _ h Hh Hne), Hs.
    unfold putCommand; cbn [Key]; rewrite !append_assoc; reflexivity.
  - intros h Hh Hne Hs; rewrite (publicHost_override _ _ h Hh Hne), Hs.
    reflexivity.
Qed.

(** C4, as the claim states it, fails: the override
    [httpcdn.example.org] has no scheme, yet no [http://] is put in
    front of it; the override [ftp://files.example.org] has one, yet
    [http://] is put in front of it. *)
Lemma public_url_counterexample :
  specHasScheme "httpcdn.example.org" = false
  /\ result (uploadToS3 Sample.world (Sample.withHost "httpcdn.example.org")
               (VStr "photo.png") None [])
     = Returned
         (RetUpload (VStr "photo.png")
            "httpcdn.example.org/uploads/1b9d6bcd-bbfd-4b2d-9b5d-ab8dfbbd4bed.png")
  /\ "httpcdn.example.org/uploads/1b9d6bcd-bbfd-4b2d-9b5d-ab8dfbbd4bed.png"
     <> "http://" ++ "httpcdn.example.org" ++ "/"
        ++ "uploads/1b9d6bcd-bbfd-4b2d-9b5d-ab8dfbbd4bed.png"
  /\ specHasScheme "ftp://files.example.org" = true
  /\ result (uploadToS3 Sample.world
               (Sample.withHost "ftp://files.example.org")
               (VStr "photo.png") None [])
     = Returned
         (RetUpload (VStr "photo.png")
            "http://ftp://files.example.org/uploads/1b9d6bcd-bbfd-4b2d-9b5d-ab8dfbbd4bed.png")
  /\ "http://ftp://files.example.org/uploads/1b9d6bcd-bbfd-4b2d-9b5d-ab8dfbbd4bed.png"
     <> "ftp://files.example.org" ++ "/"
        ++ "uploads/1b9d6bcd-bbfd-4b2d-9b5d-ab8dfbbd4bed.png".
Proof. repeat split; discriminate. Qed.

(* ------------------------------------------------------------------ *)
(** ** Errors of an upload *)

(** C8.  When the store fails, [createError] prefixes the original
    message with the plugin identifier and logs it, and [uploadToS3]
    throws a new [Error] built from that error object: the message the
    caller sees is the string form of the error, its name and a colon
    in front of the prefixed message. *)
Theorem storage_failure_rethrown (w : World) (st : Settings)
    (filename : string) (folder : prop) (buf : buffer) (failure : exn) :
  s3Send w (constructS3 st) (putCommand w st filename folder buf)
    = Some failure ->
  nonEmpty (wrappedName failure) = true ->
  uploadToS3 w st (VStr filename) folder buf
  = {| trace := [S3Send (constructS3 st)
                   (putCommand w st filename folder buf);
                 LogError (idPrefixed (originalMessage failure))];
       result :=
         Thrown (Error (wrappedName failure ++ ": "
                        ++ idPrefixed (originalMessage failure))) |}.
Proof.
  intros Hfail Hname; rewrite uploadToS3_str; cbv zeta; rewrite Hfail.
  unfold exnToString; rewrite Hname; simpl.
  destruct (originalMessage failure); reflexivity.
Qed.

(** The other failures of [uploadFile] reach the caller as they were
    thrown: the extension error with its template, the error of the
    file read as it is. *)
Lemma uploadFile_errors_unwrapped (w : World) (st : Settings) (f : File)
    (folder : prop) (p : string) :
  f_path f = Some p -> p <> "" ->
  checkSize w (f_size f) = ret tt ->
  (isExtensionAllowed (VStr p) (allowedExtensions w) = ret false ->
   uploadFile w st {| file := Some f; f_folder := folder |}
     = throw (invalidFileType (allowedExtensions w)))
  /\ (forall e,
        isExtensionAllowed (VStr p) (allowedExtensions w) = ret true ->
        fsReadFile w p = inl e ->
        uploadFile w st {| file := Some f; f_folder := folder |}
          = {| trace := [ReadFile p]; result := Thrown e |}).
Proof.
  intros Hp Hne Hsize; apply nonEmpty_true in Hne.
  unfold uploadFile; cbn [file f_folder]; rewrite Hp; simpl truthy.
  rewrite Hne, Hsize; cbn [negb val_of_prop propStr]; rewrite bind_ret.
  split.
  - intros ->; rewrite bind_ret; reflexivity.
  - intros e -> He; rewrite bind_ret; cbn [negb].
    unfold readFile, bind, emit, liftSum; simpl; rewrite He; reflexivity.
Qed.

(* ------------------------------------------------------------------ *)
(** ** The theorems at the concrete host *)


(** The scenario of the specification: a 500-byte [photo.png], the
    allow-list [.png], [.jpg] and a limit of 1024 KB; the URL ends in
    [.png]. *)
Example uploadFile_photo :
  uploadFile Sample.world Sample.settings
    {| file := Some Sample.photo; f_folder := Some "files" |}
  = {| trace :=
         [ReadFile "/tmp/photo.png";
          S3Send (constructS3 Sample.settings)
            (putCommand Sample.world Sample.settings "photo.png"
               (Some "files") [])];
       result :=
         Returned
           (RetUpload (VStr "photo.png")
              "https://forum-assets/uploads/files/1b9d6bcd-bbfd-4b2d-9b5d-ab8dfbbd4bed.png") |}.
Proof. reflexivity. Qed.


(** The default host of the sample settings, which have no override. *)
Lemma uploadToS3_public_url_witness :
  s3Send Sample.world (constructS3 Sample.settings)
    (putCommand Sample.world Sample.settings "photo.png" None []) = None
  /\ exists url,
       result (uploadToS3 Sample.world Sample.settings (VStr "photo.png")
                 None [])
       = Returned (RetUpload (VStr "photo.png") url)
       /\ url = "https://forum-assets/uploads/1b9d6bcd-bbfd-4b2d-9b5d-ab8dfbbd4bed.png".
Proof.
  split; [reflexivity|].
  destruct (uploadToS3_public_url Sample.world Sample.settings "photo.png"
              None [] eq_refl)
    as (url & Hres & Hdefault & _).
  exists url; split; [exact Hres|].
  exact (Hdefault "forum-assets" eq_refl eq_refl).
Defined.


(** A store that answers [Access Denied]. *)
Lemma storage_failure_rethrown_witness :
  s3Send (Sample.refusing (Error "Access Denied"))
    (constructS3 Sample.settings)
    (putCommand (Sample.refusing (Error "Access Denied")) Sample.settings
       "photo.png" None [])
  = Some (Error "Access Denied")
  /\ nonEmpty (wrappedName (Error "Access Denied")) = true
  /\ result (uploadToS3 (Sample.refusing (Error "Access Denied"))
               Sample.settings (VStr "photo.png") None [])
     = Thrown (Error "Error: nodebb-plugin-aws-s3-upload :: Access Denied")
  /\ startsWith constants_pluginId
       "Error: nodebb-plugin-aws-s3-upload :: Access Denied" = false.
Proof.
  split; [reflexivity | split; [reflexivity | split; [|reflexivity]]].
  rewrite (storage_failure_rethrown (Sample.refusing (Error "Access Denied"))
             Sample.settings "photo.png" None [] (Error "Access Denied")
             eq_refl eq_refl).
  reflexivity.
Defined.

(** A local image without an original name, on a host without an
    allow-list. *)
Lemma uploadImage_local_without_originalname_witness :
  truthy (i_url Sample.avatar) = false
  /\ truthy (i_originalname Sample.avatar) = false
  /\ allowedExtensions Sample.unrestricted = []
  /\ uploadImage Sample.unrestricted Sample.settings
       {| image := Some Sample.avatar; i_folder := None |}
     = throw (ReferenceError "name").
Proof.
  split; [reflexivity | split; [reflexivity | split; [reflexivity|]]].
  destruct (uploadImage_local_without_originalname Sample.unrestricted
              Sample.settings Sample.avatar None eq_refl eq_refl)
    as (_ & _ & _ & Hname & _).
  exact (Hname eq_refl eq_refl).
Defined.

(** C9, as the claim states it, fails: the extension check on an
    undefined name would end with the argument error of
    [path.extname]; the call on a local image without an original name
    ends earlier, with the [ReferenceError] of the assignment to
    [name]. *)
Lemma extension_check_not_reached_counterexample :
  truthy (i_url Sample.avatar) = false
  /\ truthy (i_originalname Sample.avatar) = false
  /\ isExtensionAllowed VUndefined (allowedExtensions Sample.unrestricted)
     = throw (TypeError "ERR_INVALID_ARG_TYPE")
  /\ uploadImage Sample.unrestricted Sample.settings
       {| image := Some Sample.avatar; i_folder := None |}
     = throw (ReferenceError "name")
  /\ ReferenceError "name" <> TypeError "ERR_INVALID_ARG_TYPE".
Proof. repeat split; discriminate. Qed.

(** A remote image that passes the size and extension checks. *)
Lemma uploadImage_url_never_uploads_witness :
  truthy (i_url Sample.remote) = true
  /\ checkSize Sample.world (i_size Sample.remote) = ret tt
  /\ isExtensionAllowed (val_of_prop (i_url Sample.remote))
       (allowedExtensions Sample.world) = ret true
  /\ uploadImage Sample.world Sample.settings
       {| image := Some Sample.remote; i_folder := None |}
     = throw (ReferenceError "imageDimension").
Proof.
  split; [reflexivity | split; [reflexivity | split; [reflexivity|]]].
  destruct (uploadImage_url_never_uploads Sample.world Sample.settings
              Sample.remote None eq_refl)
    as (_ & _ & _ & Hthrow & _).
  exact (Hthrow eq_refl eq_refl).
Defined.

(* ------------------------------------------------------------------ *)
(** * Further properties of the plugin *)

(** ** The size limit as the configuration stores it *)










(* ------------------------------------------------------------------ *)
(** ** Letter case in the extension check *)

Lemma lowerChar_idem (c : ascii) : lowerChar (lowerChar c) = lowerChar c.
Proof. destruct c as [[] [] [] [] [] [] [] []]; reflexivity. Qed.



Lemma toLowerCase_idem (s : string) :
  toLowerCase (toLowerCase s) = toLowerCase s.
Proof.
  induction s as [|c s IH]; simpl; [|rewrite lowerChar_idem, IH]; reflexivity.
Qed.








(** X4.  The entries of the allow-list are compared as they are, not
    lower-cased: with an allow-list in which no entry is its own
    lower-case form, every path is rejected. *)
Theorem isExtensionAllowed_capital_entries (p : string) (A : list string) :
  A <> [] ->
  (forall e, In e A -> toLowerCase e <> e) ->
  isExtensionAllowed (VStr p) A = ret false.
Proof.
  intros HA Hcap; rewrite isExtensionAllowed_str; apply ret_inj.
  apply not_true_iff_false; rewrite allowed_bool_spec.
  intros [E | (_ & _ & Hin)]; [contradiction|].
  apply (Hcap _ Hin), toLowerCase_idem.
Qed.

Lemma isExtensionAllowed_capital_entries_witness :
  allowedExtensions Cases.capitals <> []
  /\ (forall e, In e (allowedExtensions Cases.capitals) -> toLowerCase e <> e)
  /\ isExtensionAllowed (VStr "photo.PNG") (allowedExtensions Cases.capitals)
     = ret false.
Proof.
  assert (Hne : allowedExtensions Cases.capitals <> []) by discriminate.
  assert (Hcap : forall e, In e (allowedExtensions Cases.capitals) ->
                           toLowerCase e <> e).
  { intros e [<- | [<- | []]]; discriminate. }
  exact (conj Hne (conj Hcap
           (isExtensionAllowed_capital_entries "photo.PNG" _ Hne Hcap))).
Defined.

(* ------------------------------------------------------------------ *)
(** ** What a reload cannot do *)

Lemma keep_cases (incoming current : prop) :
  keep incoming current = current
  \/ (keep incoming current = incoming /\ truthy incoming = true).
Proof.
  unfold keep; destruct (truthy incoming) eqn:E; simpl.
  - destruct (nonEmpty (propStr incoming)); [right; split | left]; reflexivity.
  - left; reflexivity.
Qed.

Lemma reloadSettings_field (w : World) (data : option HookData)
    (st : Settings) (f : field) :
  get f (reloadSettings w data st) = get f st
  \/ (get f (reloadSettings w data st) = get f (storedSettings w)
      /\ truthy (get f (storedSettings w)) = true).
Proof.
  unfold reloadSettings; destruct (otherPlugin data); [left; reflexivity|].
  destruct f; simpl; apply keep_cases.
Qed.

(** X5.  A reload never empties a setting: a field that held a
    non-empty value before [reloadSettings] holds one after it,
    whatever the stored settings and the hook payload are; in
    particular a stored empty value does not clear it. *)
Theorem reloadSettings_never_clears (w : World) (data : option HookData)
    (st : Settings) (f : field) :
  truthy (get f st) = true ->
  truthy (get f (reloadSettings w data st)) = true
  /\ (truthy (get f (storedSettings w)) = false ->
      get f (reloadSettings w data st) = get f st).
Proof.
  intros Hset.
  destruct (reloadSettings_field w data st f) as [-> | (-> & Hnew)].
  - split; [assumption | reflexivity].
  - split; [assumption | intros E; congruence].
Qed.

Lemma reloadSettings_never_clears_witness :
  truthy (get BucketName Sample.settings) = true
  /\ get BucketName (storedSettings Sample.world) = Some ""
  /\ get BucketName (reloadSettings Sample.world None Sample.settings)
     = Some "forum-assets".
Proof.
  refine (conj eq_refl (conj eq_refl _)).
  exact (proj2 (reloadSettings_never_clears Sample.world None Sample.settings
                  BucketName eq_refl) eq_refl).
Defined.

(** X6.  Of two reloads in a row, the later one wins field by field
    where it brings a non-empty value, the earlier one where only it
    does, and the prior value stays where neither does. *)
Theorem reloadSettings_twice (w1 w2 : World) (st : Settings) (f : field) :
  let after := reloadSettings w2 None (reloadSettings w1 None st) in
  (truthy (get f (storedSettings w2)) = true ->
   get f after = get f (storedSettings w2))
  /\ (truthy (get f (storedSettings w2)) = false ->
      truthy (get f (storedSettings w1)) = true ->
      get f after = get f (storedSettings w1))
  /\ (truthy (get f (storedSettings w2)) = false ->
      truthy (get f (storedSettings w1)) = false ->
      get f after = get f st).
Proof.
  cbv zeta; unfold reloadSettings; simpl otherPlugin; cbv iota.
  assert (Hk : forall a b, truthy a = true -> keep a b = a).
  { intros [[|c s]|] b H; try discriminate; reflexivity. }
  assert (Hn : forall a b, truthy a = false -> keep a b = b).
  { intros a b H; unfold keep; rewrite H; reflexivity. }
  destruct f; simpl; repeat split; intros;
    rewrite ?Hk by assumption; rewrite ?Hn by assumption;
    rewrite ?Hk by assumption; rewrite ?Hn by assumption; reflexivity.
Qed.

(* ------------------------------------------------------------------ *)
(** ** The runs of [uploadToS3] and [uploadFile], case by case *)

Lemma uploadToS3_not_string (w : World) (st : Settings) (filename : jsval)
    (folder : prop) (buf : buffer) :
  (forall s, filename <> VStr s) ->
  uploadToS3 w st filename folder buf
  = throw (TypeError "ERR_INVALID_ARG_TYPE").
Proof.
  intros H; unfold uploadToS3.
  destruct filename; try reflexivity.
  exfalso; exact (H s eq_refl).
Qed.

(** The run of [uploadFile] once its checks are passed. *)
Lemma uploadFile_checked (w : World) (st : Settings) (f : File)
    (folder : prop) (p : string) :
  f_path f = Some p -> p <> "" ->
  checkSize w (f_size f) = ret tt ->
  isExtensionAllowed (VStr p) (allowedExtensions w) = ret true ->
  uploadFile w st {| file := Some f; f_folder := folder |}
  = match fsReadFile w p with
    | inl e => {| trace := [ReadFile p]; result := Thrown e |}
    | inr buf =>
        {| trace :=
             ReadFile p
             :: trace (uploadToS3 w st (val_of_prop (f_name f)) folder buf);
           result :=
             result (uploadToS3 w st (val_of_prop (f_name f)) folder buf) |}
    end.
Proof.
  intros Hp Hne Hsize Hext; apply nonEmpty_true in Hne.
  unfold uploadFile; cbn [file f_folder]; rewrite Hp; simpl truthy.
  rewrite Hne, Hsize; cbn [negb val_of_prop propStr].
  rewrite bind_ret, Hext, bind_ret; cbn [negb].
  unfold readFile, bind, emit, liftSum; simpl.
  destruct (fsReadFile w p) as [e | buf]; simpl; [reflexivity|].
  destruct (uploadToS3 w st _ folder buf) as [tr [r | e]]; reflexivity.
Qed.

Lemma checkSize_not_ret (w : World) (L : Z) :
  checkSize w L <> ret tt ->
  checkSize w L
  = {| trace := [LogError (fileTooBig w)];
       result := Thrown (Error ("[[" ++ fileTooBig w ++ "]]")) |}.
Proof. destruct (checkSize_cases w L) as [E | E]; [contradiction | trivial]. Qed.

Lemma run_eq_dec_ret (w : World) (L : Z) :
  checkSize w L = ret tt \/ checkSize w L <> ret tt.
Proof.
  destruct (checkSize_cases w L) as [E | E]; [left; assumption|].
  right; rewrite E; discriminate.
Qed.

Lemma isExtensionAllowed_verdict (p : string) (A : list string) :
  isExtensionAllowed (VStr p) A = ret true
  \/ isExtensionAllowed (VStr p) A = ret false.
Proof.
  rewrite isExtensionAllowed_str.
  match goal with |- context [ret (negb ?b)] => destruct b end; auto.
Qed.

(** Every run of [uploadFile] is a refusal, or has passed the checks. *)
Lemma uploadFile_refused_or_checked (w : World) (st : Settings)
    (data : FileData) :
  refusal w data (uploadFile w st data)
  \/ exists f p,
       file data = Some f /\ f_path f = Some p /\ p <> ""
       /\ checkSize w (f_size f) = ret tt
       /\ isExtensionAllowed (VStr p) (allowedExtensions w) = ret true.
Proof.
  destruct data as [[f|] folder].
  - destruct (truthy (f_path f)) eqn:Hp.
    + destruct (truthy_some _ Hp) as (p & Ep & Hne); apply nonEmpty_true in Hne.
      destruct (run_eq_dec_ret w (f_size f)) as [Hs | Hs].
      * destruct (isExtensionAllowed_verdict p (allowedExtensions w))
          as [He | He].
        -- right; exists f, p; auto.
        -- left; unfold uploadFile; cbn [file f_folder].
           rewrite Hp, Hs, Ep; cbn [negb val_of_prop].
           rewrite bind_ret, He, bind_ret; cbn [negb].
           apply RefuseExtension with (f := f) (p := p);
             solve [reflexivity | assumption].
      * left; unfold uploadFile; cbn [file f_folder].
        rewrite Hp, (checkSize_not_ret w _ Hs); cbn [negb].
        apply RefuseSize with (f := f); solve [reflexivity | assumption].
    + left; unfold uploadFile; cbn [file f_folder]; rewrite Hp.
      apply RefuseNoPath with (f := f); solve [reflexivity | assumption].
  - left; apply RefuseNoFile; reflexivity.
Qed.

Lemma refusal_quiet (w : World) (data : FileData) (r : run retval) :
  refusal w data r ->
  isThrown r /\ noIO r /\ countReads (trace r) = 0 /\ countSends (trace r) = 0.
Proof. intros [ | | | ]; repeat split. Qed.

(** The trace and the result of [uploadToS3], whatever the name is. *)
Lemma uploadToS3_shape (w : World) (st : Settings) (filename : jsval)
    (folder : prop) (buf : buffer) :
  let r := uploadToS3 w st filename folder buf in
  (trace r = [] /\ (forall s, filename <> VStr s)
   /\ result r = Thrown (TypeError "ERR_INVALID_ARG_TYPE"))
  \/ exists name,
       filename = VStr name
       /\ let cmd := putCommand w st name folder buf in
          (s3Send w (constructS3 st) cmd = None
           /\ trace r = [S3Send (constructS3 st) cmd]
           /\ result r = Returned (RetUpload (VStr name)
                                     (publicHost st cmd ++ "/" ++ Key cmd)))
          \/ (exists failure,
                s3Send w (constructS3 st) cmd = Some failure
                /\ trace r = [S3Send (constructS3 st) cmd;
                              LogError (idPrefixed (originalMessage failure))]
                /\ result r
                   = Thrown (Error (exnToString
                                      (ErrorObj (wrappedName failure)
                                         (idPrefixed
                                            (originalMessage failure)))))).
Proof.
  cbv zeta; destruct filename as [ | z | name | tag ];
    try (left; repeat split; intros s; discriminate).
  right; exists name; split; [reflexivity|].
  rewrite uploadToS3_str; cbv zeta.
  destruct (s3Send w (constructS3 st) (putCommand w st name folder buf))
    as [failure|]; [right; exists failure | left]; repeat split.
Qed.

(** The four ways [uploadFile] ends once its checks are passed. *)
Lemma uploadFile_checked_outcomes (w : World) (st : Settings) (f : File)
    (folder : prop) (p : string) :
  f_path f = Some p -> p <> "" ->
  checkSize w (f_size f) = ret tt ->
  isExtensionAllowed (VStr p) (allowedExtensions w) = ret true ->
  let r := uploadFile w st {| file := Some f; f_folder := folder |} in
  (exists e, fsReadFile w p = inl e
             /\ r = {| trace := [ReadFile p]; result := Thrown e |})
  \/ (exists buf, fsReadFile w p = inr buf /\ f_name f = None
        /\ r = {| trace := [ReadFile p];
                  result := Thrown (TypeError "ERR_INVALID_ARG_TYPE") |})
  \/ (exists buf name failure,
        fsReadFile w p = inr buf /\ f_name f = Some name
        /\ s3Send w (constructS3 st) (putCommand w st name folder buf)
           = Some failure
        /\ r = {| trace :=
                    [ReadFile p;
                     S3Send (constructS3 st)
                       (putCommand w st name folder buf);
                     LogError (idPrefixed (originalMessage failure))];
                  result :=
                    Thrown (Error (exnToString
                                     (ErrorObj (wrappedName failure)
                                        (idPrefixed
                                           (originalMessage failure))))) |})
  \/ (exists buf name,
        fsReadFile w p = inr buf /\ f_name f = Some name
        /\ s3Send w (constructS3 st) (putCommand w st name folder buf) = None
        /\ r = {| trace :=
                    [ReadFile p;
                     S3Send (constructS3 st)
                       (putCommand w st name folder buf)];
                  result :=
                    Returned
                      (RetUpload (VStr name)
                         (publicHost st (putCommand w st name folder buf)
                          ++ "/" ++ Key (putCommand w st name folder buf))) |}).
Proof.
  intros Hp Hne Hsize Hext; cbv zeta.
  rewrite (uploadFile_checked w st f folder p Hp Hne Hsize Hext).
  destruct (fsReadFile w p) as [e | buf]; [left; eauto|].
  right; destruct (f_name f) as [name|]; simpl val_of_prop.
  - right; rewrite uploadToS3_str; cbv zeta.
    destruct (s3Send w (constructS3 st) (putCommand w st name folder buf))
      as [failure|] eqn:E.
    + left; exists buf, name, failure; auto.
    + right; exists buf, name; auto.
  - left; exists buf; auto.
Qed.

Lemma fileData_eta (data : FileData) :
  data = {| file := file data; f_folder := f_folder data |}.
Proof. destruct data; reflexivity. Qed.

(** X7.  [uploadFile] keeps its order: it reads at most one file and
    sends at most one command; and it touches the disk or the store
    only after the file, its path, the size check and the extension
    check have all been passed, starting with the read of
    [file.path]. *)
Theorem uploadFile_checks_before_io (w : World) (st : Settings)
    (data : FileData) :
  let r := uploadFile w st data in
  countReads (trace r) <= 1
  /\ countSends (trace r) <= 1
  /\ (noIO r
      \/ exists f p rest,
           file data = Some f /\ f_path f = Some p
           /\ checkSize w (f_size f) = ret tt
           /\ isExtensionAllowed (VStr p) (allowedExtensions w) = ret true
           /\ trace r = ReadFile p :: rest
           /\ countReads rest = 0).
Proof.
  cbv zeta.
  destruct (uploadFile_refused_or_checked w st data)
    as [Hr | (f & p & Hf & Hp & Hne & Hs & He)].
  - destruct (refusal_quiet _ _ _ Hr) as (_ & Hq & -> & ->).
    repeat split; auto.
  - assert (Hio : exists rest,
               trace (uploadFile w st data) = ReadFile p :: rest
               /\ countReads rest = 0 /\ countSends rest <= 1).
    { rewrite (fileData_eta data), Hf.
      destruct (uploadFile_checked_outcomes w st f (f_folder data) p
                  Hp Hne Hs He)
        as [(e & _ & ->) | [(b & _ & _ & ->)
           | [(b & n & x & _ & _ & _ & ->) | (b & n & _ & _ & _ & ->)]]];
        eexists; (split; [reflexivity|]); simpl; auto. }
    destruct Hio as (rest & Ht & Hreads & Hsends); rewrite Ht; simpl.
    rewrite Hreads; repeat split; auto.
    right; exists f, p, rest; auto 10.
Qed.

(** X8.  [uploadFile] returns a result exactly when the file has a
    path and a name, passes the size and extension checks, is read and
    is accepted by the store; the run is then the read of [file.path]
    followed by one command carrying the bytes read and their length,
    and the URL returned is the public host, a slash and the key of
    that command. *)
Theorem uploadFile_returns_iff (w : World) (st : Settings) (data : FileData)
    (res : retval) :
  result (uploadFile w st data) = Returned res
  <-> exists f p name buf,
        file data = Some f /\ f_path f = Some p /\ p <> ""
        /\ f_name f = Some name
        /\ checkSize w (f_size f) = ret tt
        /\ isExtensionAllowed (VStr p) (allowedExtensions w) = ret true
        /\ fsReadFile w p = inr buf
        /\ let cmd := putCommand w st name (f_folder data) buf in
           s3Send w (constructS3 st) cmd = None
           /\ Body cmd = buf /\ ContentLength cmd = List.length buf
           /\ trace (uploadFile w st data)
              = [ReadFile p; S3Send (constructS3 st) cmd]
           /\ res = RetUpload (VStr name)
                      (publicHost st cmd ++ "/" ++ Key cmd).
Proof.
  split.
  - intros Hres.
    destruct (uploadFile_refused_or_checked w st data)
      as [Hr | (f & p & Hf & Hp & Hne & Hs & He)].
    + destruct (refusal_quiet _ _ _ Hr) as (Ht & _).
      unfold isThrown in Ht; rewrite Hres in Ht; contradiction.
    + revert Hres; rewrite (fileData_eta data), Hf.
      destruct (uploadFile_checked_outcomes w st f (f_folder data) p
                  Hp Hne Hs He)
        as [(e & _ & ->) | [(b & _ & _ & ->)
           | [(b & n & x & _ & _ & _ & ->) | (b & n & Hb & Hn & Hok & ->)]]];
        simpl; try discriminate.
      intros Hres; injection Hres as <-.
      exists f, p, n, b; cbv zeta; repeat split; auto.
  - intros (f & p & name & buf & Hf & Hp & Hne & Hn & Hs & He & Hb & Hrest).
    cbv zeta in Hrest; destruct Hrest as (Hok & _ & _ & _ & ->).
    rewrite (fileData_eta data), Hf.
    destruct (uploadFile_checked_outcomes w st f (f_folder data) p
                Hp Hne Hs He)
      as [(e & Hb' & _) | [(b & _ & Hn' & _)
         | [(b & n & x & Hb' & Hn' & Hx & _) | (b & n & Hb' & Hn' & _ & ->)]]];
      try congruence.
    assert (b = buf) by congruence; assert (n = name) by congruence; subst.
    reflexivity.
Qed.

(** X9.  When [uploadFile] fails, either no command was sent to the
    store, or the one command sent was refused by the store itself and
    the refusal was logged with the plugin identifier: a failing call
    never leaves an accepted object behind. *)
Theorem uploadFile_failure_stores_nothing (w : World) (st : Settings)
    (data : FileData) (e : exn) :
  result (uploadFile w st data) = Thrown e ->
  countSends (trace (uploadFile w st data)) = 0
  \/ exists p cmd failure,
       s3Send w (constructS3 st) cmd = Some failure
       /\ trace (uploadFile w st data)
          = [ReadFile p; S3Send (constructS3 st) cmd;
             LogError (idPrefixed (originalMessage failure))].
Proof.
  intros Hres.
  destruct (uploadFile_refused_or_checked w st data)
    as [Hr | (f & p & Hf & Hp & Hne & Hs & He)].
  - left; exact (proj2 (proj2 (proj2 (refusal_quiet _ _ _ Hr)))).
  - revert Hres; rewrite (fileData_eta data), Hf.
    destruct (uploadFile_checked_outcomes w st f (f_folder data) p
                Hp Hne Hs He)
      as [(x & _ & ->) | [(b & _ & _ & ->)
         | [(b & n & x & _ & _ & Hx & ->) | (b & n & _ & _ & _ & ->)]]];
      simpl; intros Hres; try discriminate; try (left; reflexivity).
    right; exists p, (putCommand w st n (f_folder data) b), x; auto.
Qed.

Lemma uploadFile_failure_stores_nothing_witness :
  result (uploadFile (Sample.refusing (Error "Access Denied"))
            Sample.settings
            {| file := Some Sample.photo; f_folder := None |})
  = Thrown (Error "Error: nodebb-plugin-aws-s3-upload :: Access Denied")
  /\ (countSends
        (trace (uploadFile (Sample.refusing (Error "Access Denied"))
                  Sample.settings
                  {| file := Some Sample.photo; f_folder := None |})) = 0
      \/ exists p cmd failure,
           s3Send (Sample.refusing (Error "Access Denied"))
             (constructS3 Sample.settings) cmd = Some failure
           /\ trace (uploadFile (Sample.refusing (Error "Access Denied"))
                       Sample.settings
                       {| file := Some Sample.photo; f_folder := None |})
              = [ReadFile p; S3Send (constructS3 Sample.settings) cmd;
                 LogError (idPrefixed (originalMessage failure))]).
Proof.
  split; [reflexivity|].
  exact (uploadFile_failure_stores_nothing
           (Sample.refusing (Error "Access Denied")) Sample.settings
           {| file := Some Sample.photo; f_folder := None |} _ eq_refl).
Defined.

(** X10.  Past the checks, a failing read ends [uploadFile] with the
    error of the file system as it is, and a file without a name ends
    it, after the read, with the argument error of [path.extname]; in
    both cases nothing is sent to the store and nothing is logged. *)
Theorem uploadFile_read_or_name_failure (w : World) (st : Settings)
    (f : File) (folder : prop) (p : string) :
  f_path f = Some p -> p <> "" ->
  checkSize w (f_size f) = ret tt ->
  isExtensionAllowed (VStr p) (allowedExtensions w) = ret true ->
  (forall e, fsReadFile w p = inl e ->
     uploadFile w st {| file := Some f; f_folder := folder |}
     = {| trace := [ReadFile p]; result := Thrown e |})
  /\ (forall buf, fsReadFile w p = inr buf -> f_name f = None ->
        uploadFile w st {| file := Some f; f_folder := folder |}
        = {| trace := [ReadFile p];
             result := Thrown (TypeError "ERR_INVALID_ARG_TYPE") |}).
Proof.
  intros Hp Hne Hs He.
  rewrite (uploadFile_checked w st f folder p Hp Hne Hs He).
  split.
  - intros e ->; reflexivity.
  - intros buf -> ->; reflexivity.
Qed.

Lemma uploadFile_read_or_name_failure_witness :
  uploadFile Cases.unreadable Sample.settings
    {| file := Some Sample.photo; f_folder := None |}
  = {| trace := [ReadFile "/tmp/photo.png"];
       result := Thrown (ErrorObj "Error" "ENOENT") |}
  /\ uploadFile Sample.world Sample.settings
       {| file := Some Cases.nameless; f_folder := None |}
     = {| trace := [ReadFile "/tmp/photo.png"];
          result := Thrown (TypeError "ERR_INVALID_ARG_TYPE") |}.
Proof.
  assert (Hne : "/tmp/photo.png" <> "") by discriminate.
  split.
  - exact (proj1 (uploadFile_read_or_name_failure Cases.unreadable
                    Sample.settings Sample.photo None "/tmp/photo.png"
                    eq_refl Hne eq_refl eq_refl) _ eq_refl).
  - exact (proj2 (uploadFile_read_or_name_failure Sample.world
                    Sample.settings Cases.nameless None "/tmp/photo.png"
                    eq_refl Hne eq_refl eq_refl) _ eq_refl eq_refl).
Defined.

(* ------------------------------------------------------------------ *)
(** ** The one working path of [uploadImage] *)

(** The run of [uploadImage] on a local image that carries an original
    name, once the size check is passed. *)
Lemma uploadImage_local_named (w : World) (st : Settings) (i : Image)
    (folder : prop) (p o : string) :
  truthy (i_url i) = false ->
  i_path i = Some p -> p <> "" ->
  i_originalname i = Some o -> o <> "" ->
  checkSize w (i_size i) = ret tt ->
  uploadImage w st {| image := Some i; i_folder := folder |}
  = (ok <- isExtensionAllowed (VStr o) (allowedExtensions w) ;;
     if negb ok then throw (invalidFileType (allowedExtensions w))
     else
       buf <- readFile w p ;;
       uploadToS3 w st (val_of_prop (i_name i)) folder buf).
Proof.
  intros Hu Hp Hpne Ho Hone Hs.
  apply nonEmpty_true in Hpne; apply nonEmpty_true in Hone.
  unfold uploadImage; cbn [image i_folder].
  rewrite Hs, bind_ret, Hu; cbn [String.eqb Ascii.eqb Bool.eqb].
  rewrite Hp, Ho; cbn [truthy]; rewrite Hpne, Hone; cbn [negb].
  rewrite bind_ret; reflexivity.
Qed.

(** [uploadImage] returns nothing unless the image is local, has a
    path and an original name, and passes the size check. *)
Lemma uploadImage_returns_local (w : World) (st : Settings)
    (data : ImageData) (res : retval) :
  result (uploadImage w st data) = Returned res ->
  exists i p o,
    image data = Some i /\ truthy (i_url i) = false
    /\ i_path i = Some p /\ p <> ""
    /\ i_originalname i = Some o /\ o <> ""
    /\ checkSize w (i_size i) = ret tt.
Proof.
  destruct data as [[i|] folder]; unfold uploadImage; cbn [image i_folder];
    [|discriminate].
  destruct (checkSize_cases w (i_size i)) as [Hs | Hs]; rewrite Hs;
    [rewrite bind_ret | discriminate].
  destruct (truthy (i_url i)) eqn:Hu; cbn [String.eqb Ascii.eqb Bool.eqb].
  - destruct (truthy_some _ Hu) as (u & -> & _); simpl val_of_prop.
    rewrite isExtensionAllowed_str, bind_ret.
    match goal with |- context [negb (negb ?b)] => destruct b end;
      discriminate.
  - destruct (truthy (i_path i)) eqn:Hp; [|discriminate]; cbn [negb].
    destruct (truthy (i_originalname i)) eqn:Ho; [|discriminate].
    destruct (truthy_some _ Hp) as (p & Ep & Hpne).
    destruct (truthy_some _ Ho) as (o & Eo & Hone).
    apply nonEmpty_true in Hpne; apply nonEmpty_true in Hone.
    intros _; exists i, p, o; auto 10.
Qed.

Lemma imageData_eta (data : ImageData) :
  data = {| image := image data; i_folder := i_folder data |}.
Proof. destruct data; reflexivity. Qed.

(** X11.  On a local image that carries an original name,
    [uploadImage] does what [uploadFile] does on the same size, path
    and name, whenever the original name and the path get the same
    verdict of the extension check. *)
Theorem uploadImage_as_uploadFile (w : World) (st : Settings) (i : Image)
    (folder : prop) (p o : string) :
  truthy (i_url i) = false ->
  i_path i = Some p -> p <> "" ->
  i_originalname i = Some o -> o <> "" ->
  isExtensionAllowed (VStr o) (allowedExtensions w)
    = isExtensionAllowed (VStr p) (allowedExtensions w) ->
  uploadImage w st {| image := Some i; i_folder := folder |}
  = uploadFile w st {| file := Some (fileOfImage i); f_folder := folder |}.
Proof.
  intros Hu Hp Hpne Ho Hone Hsame.
  destruct (checkSize_cases w (i_size i)) as [Hs | Hs].
  - rewrite (uploadImage_local_named w st i folder p o Hu Hp Hpne Ho Hone Hs).
    apply nonEmpty_true in Hpne.
    unfold uploadFile; cbn [file f_folder fileOfImage f_path f_size f_name].
    rewrite Hp; cbn [truthy]; rewrite Hpne, Hs, bind_ret, Hsame.
    reflexivity.
  - apply nonEmpty_true in Hpne.
    unfold uploadImage, uploadFile;
      cbn [image i_folder file f_folder fileOfImage f_path f_size f_name].
    rewrite Hp; cbn [truthy]; rewrite Hpne, Hs; reflexivity.
Qed.

Lemma uploadImage_as_uploadFile_witness :
  truthy (i_url Cases.named) = false
  /\ isExtensionAllowed (VStr "Avatar.PNG") (allowedExtensions Sample.unrestricted)
     = isExtensionAllowed (VStr "/tmp/upload_3f2a")
         (allowedExtensions Sample.unrestricted)
  /\ uploadImage Sample.unrestricted Sample.settings
       {| image := Some Cases.named; i_folder := None |}
     = uploadFile Sample.unrestricted Sample.settings
         {| file := Some (fileOfImage Cases.named); f_folder := None |}.
Proof.
  refine (conj eq_refl (conj eq_refl _)).
  apply (uploadImage_as_uploadFile Sample.unrestricted Sample.settings
           Cases.named None "/tmp/upload_3f2a" "Avatar.PNG");
    solve [reflexivity | discriminate].
Defined.

(** X12.  [uploadImage] returns a result exactly when the image is a
    local one (no url) with a path, an original name and a name, the
    size check and the extension check of the original name (not of
    the path) are passed, the file at the path is read and the store
    accepts the command; the run is then that read followed by one
    command with the bytes read. *)
Theorem uploadImage_returns_iff (w : World) (st : Settings)
    (data : ImageData) (res : retval) :
  result (uploadImage w st data) = Returned res
  <-> exists i p o name buf,
        image data = Some i /\ truthy (i_url i) = false
        /\ i_path i = Some p /\ p <> ""
        /\ i_originalname i = Some o /\ o <> ""
        /\ i_name i = Some name
        /\ checkSize w (i_size i) = ret tt
        /\ isExtensionAllowed (VStr o) (allowedExtensions w) = ret true
        /\ fsReadFile w p = inr buf
        /\ let cmd := putCommand w st name (i_folder data) buf in
           s3Send w (constructS3 st) cmd = None
           /\ trace (uploadImage w st data)
              = [ReadFile p; S3Send (constructS3 st) cmd]
           /\ res = RetUpload (VStr name)
                      (publicHost st cmd ++ "/" ++ Key cmd).
Proof.
  split.
  - intros Hres.
    destruct (uploadImage_returns_local w st data res Hres)
      as (i & p & o & Hi & Hu & Hp & Hpne & Ho & Hone & Hs).
    revert Hres; rewrite (imageData_eta data), Hi.
    rewrite (uploadImage_local_named w st i _ p o Hu Hp Hpne Ho Hone Hs).
    destruct (isExtensionAllowed_verdict o (allowedExtensions w))
      as [He | He]; rewrite He, bind_ret; cbn [negb]; [|discriminate].
    unfold readFile, bind, emit, liftSum; simpl.
    destruct (fsReadFile w p) as [e | buf] eqn:Hb; simpl; [discriminate|].
    destruct (i_name i) as [name|] eqn:Hn; simpl val_of_prop;
      [|discriminate].
    rewrite uploadToS3_str; cbv zeta.
    destruct (s3Send w (constructS3 st)
                (putCommand w st name (i_folder data) buf)) eqn:Hok;
      simpl; [discriminate|].
    intros Hres; injection Hres as <-.
    exists i, p, o, name, buf; cbv zeta; rewrite Hok; auto 15.
  - intros (i & p & o & name & buf & Hi & Hu & Hp & Hpne & Ho & Hone & Hn
            & Hs & He & Hb & Hrest).
    cbv zeta in Hrest; destruct Hrest as (Hok & _ & ->).
    rewrite (imageData_eta data), Hi.
    rewrite (uploadImage_local_named w st i _ p o Hu Hp Hpne Ho Hone Hs).
    rewrite He, bind_ret; cbn [negb].
    unfold readFile, bind, emit, liftSum; simpl; rewrite Hb; simpl.
    rewrite Hn; simpl val_of_prop; rewrite uploadToS3_str; cbv zeta.
    rewrite Hok; reflexivity.
Qed.

(* ------------------------------------------------------------------ *)
(** ** Keys and URLs *)

Lemma uploadToS3_sentKeys (w : World) (st : Settings) (filename : string)
    (folder : prop) (buf : buffer) :
  sentKeys (trace (uploadToS3 w st (VStr filename) folder buf))
  = [s3KeyPath st folder ++ uuid w ++ extname filename].
Proof.
  rewrite uploadToS3_str; cbv zeta.
  destruct (s3Send _ _ _); reflexivity.
Qed.

Lemma endsWithSlash_snoc (u : string) : endsWithSlash (u ++ "/") = true.
Proof. rewrite endsWithSlash_app; reflexivity. Qed.

Lemma strip_plain (u t : string) :
  nonEmpty u = true -> leadingSlash u = false ->
  stripLeadingSlash (u ++ t) = u ++ t.
Proof.
  destruct u as [|c u]; [discriminate|]; simpl; intros _ ->; reflexivity.
Qed.

Lemma s3Path_set (st : Settings) (u : string) :
  uploadPath st = Some u -> nonEmpty u = true ->
  s3Path st = if negb (endsWithSlash u) then u ++ "/" else u.
Proof. unfold s3Path; intros -> Hu; simpl; rewrite Hu; reflexivity. Qed.

(** X13.  The slashes around the upload path do not matter: for a path
    [u] without a slash at either end, the settings [u], [/u], [u/]
    and [/u/] all give the key [u/], the folder and a slash when there
    is a folder, the token and the extension. *)
Theorem upload_path_slashes_ignored (w : World) (st : Settings) (u : string)
    (filename : string) (folder : prop) (buf : buffer) :
  nonEmpty u = true ->
  leadingSlash u = false ->
  endsWithSlash u = false ->
  uploadPath st = Some u \/ uploadPath st = Some ("/" ++ u)
  \/ uploadPath st = Some (u ++ "/") \/ uploadPath st = Some ("/" ++ u ++ "/") ->
  sentKeys (trace (uploadToS3 w st (VStr filename) folder buf))
  = [u ++ "/" ++ folderPart folder ++ uuid w ++ extname filename].
Proof.
  intros Hne Hl He Hcases; rewrite uploadToS3_sentKeys, s3KeyPath_shape.
  fold (folderPart folder).
  assert (Hs : stripLeadingSlash (s3Path st) = u ++ "/").
  { destruct Hcases as [H | [H | [H | H]]].
    - rewrite (s3Path_set st u H Hne), He; simpl.
      apply strip_plain; assumption.
    - rewrite (s3Path_set st _ H eq_refl).
      replace (endsWithSlash ("/" ++ u)) with false; [reflexivity|].
      destruct u; [discriminate | symmetry; exact He].
    - assert (Hn : nonEmpty (u ++ "/") = true) by (destruct u; reflexivity).
      rewrite (s3Path_set st _ H Hn), endsWithSlash_snoc; simpl.
      apply strip_plain; assumption.
    - rewrite (s3Path_set st _ H eq_refl).
      replace (endsWithSlash ("/" ++ u ++ "/")) with true; [reflexivity|].
      symmetry; change ("/" ++ u ++ "/") with (String "/" (u ++ "/")).
      pose proof (endsWithSlash_snoc u) as E.
      destruct u; [discriminate | exact E]. }
  rewrite Hs, !append_assoc; reflexivity.
Qed.

Lemma upload_path_slashes_ignored_witness :
  sentKeys (trace (uploadToS3 Sample.world (Sample.withPath "/uploads/")
                     (VStr "photo.png") (Some "files") []))
  = ["uploads/files/1b9d6bcd-bbfd-4b2d-9b5d-ab8dfbbd4bed.png"]
  /\ sentKeys (trace (uploadToS3 Sample.world (Sample.withPath "uploads")
                        (VStr "photo.png") (Some "files") []))
     = ["uploads/files/1b9d6bcd-bbfd-4b2d-9b5d-ab8dfbbd4bed.png"].
Proof.
  split.
  - exact (upload_path_slashes_ignored Sample.world
             (Sample.withPath "/uploads/") "uploads" "photo.png"
             (Some "files") [] eq_refl eq_refl eq_refl
             (or_intror (or_intror (or_intror eq_refl)))).
  - exact (upload_path_slashes_ignored Sample.world
             (Sample.withPath "uploads") "uploads" "photo.png"
             (Some "files") [] eq_refl eq_refl eq_refl (or_introl eq_refl)).
Defined.

(** X14.  Without an upload path (absent, empty, or the single slash)
    the object goes to the root of the bucket: the key is the folder
    and a slash when there is a folder, then the token and the
    extension, with nothing in front. *)
Theorem upload_path_root (w : World) (st : Settings) (filename : string)
    (folder : prop) (buf : buffer) :
  uploadPath st = None \/ uploadPath st = Some ""
  \/ uploadPath st = Some "/" ->
  sentKeys (trace (uploadToS3 w st (VStr filename) folder buf))
  = [folderPart folder ++ uuid w ++ extname filename].
Proof.
  intros Hcases; rewrite uploadToS3_sentKeys, s3KeyPath_shape.
  fold (folderPart folder).
  assert (Hs : stripLeadingSlash (s3Path st) = "").
  { unfold s3Path; destruct Hcases as [-> | [-> | ->]]; reflexivity. }
  rewrite Hs; reflexivity.
Qed.

Lemma upload_path_root_witness :
  sentKeys (trace (uploadToS3 Sample.world (Sample.withPath "/")
                     (VStr "photo.png") (Some "files") []))
  = ["files/1b9d6bcd-bbfd-4b2d-9b5d-ab8dfbbd4bed.png"].
Proof.
  exact (upload_path_root Sample.world (Sample.withPath "/") "photo.png"
           (Some "files") [] (or_intror (or_intror eq_refl))).
Defined.

Lemma append_inv_head (a x y : string) : a ++ x = a ++ y -> x = y.
Proof.
  induction a as [|c a IH]; simpl; [trivial|].
  intros H; injection H as H; exact (IH H).
Qed.

Lemma append_same_length (x y e1 e2 : string) :
  String.length x = String.length y -> x ++ e1 = y ++ e2 -> x = y.
Proof.
  revert y; induction x as [|c x IH]; intros [|d y] Hlen H;
    try discriminate; [reflexivity|].
  simpl in *; injection H as -> H; injection Hlen as Hlen.
  rewrite (IH y Hlen H); reflexivity.
Qed.

(** X15.  Two uploads under the same settings and folder whose tokens
    differ, and are of the same length as two uuids are, never get the
    same key, whatever the two file names. *)
Theorem keys_differ_with_tokens (w1 w2 : World) (st : Settings)
    (folder : prop) (name1 name2 : string) (buf1 buf2 : buffer) :
  String.length (uuid w1) = String.length (uuid w2) ->
  uuid w1 <> uuid w2 ->
  sentKeys (trace (uploadToS3 w1 st (VStr name1) folder buf1))
  <> sentKeys (trace (uploadToS3 w2 st (VStr name2) folder buf2)).
Proof.
  intros Hlen Hne; rewrite !uploadToS3_sentKeys; intros H.
  injection H as H; apply append_inv_head in H.
  exact (Hne (append_same_length _ _ _ _ Hlen H)).
Qed.

Lemma keys_differ_with_tokens_witness :
  String.length (uuid Sample.world) = String.length (uuid Cases.otherToken)
  /\ uuid Sample.world <> uuid Cases.otherToken
  /\ sentKeys (trace (uploadToS3 Sample.world Sample.settings
                        (VStr "photo.png") None []))
     <> sentKeys (trace (uploadToS3 Cases.otherToken Sample.settings
                           (VStr "photo.png") None [])).
Proof.
  assert (Hne : uuid Sample.world <> uuid Cases.otherToken) by discriminate.
  exact (conj eq_refl (conj Hne
           (keys_differ_with_tokens Sample.world Cases.otherToken
              Sample.settings None "photo.png" "photo.png" [] []
              eq_refl Hne))).
Defined.

Lemma startsWith_app (a s t : string) :
  startsWith a s = true -> startsWith a (s ++ t) = true.
Proof.
  revert s; induction a as [|c a IH]; intros s; simpl; [reflexivity|].
  destruct s as [|d s]; simpl; [discriminate|].
  intros H; apply andb_true_iff in H; destruct H as [-> H].
  exact (IH s H).
Qed.

Lemma startsWith_refl_app (a t : string) : startsWith a (a ++ t) = true.
Proof.
  induction a as [|c a IH]; simpl; [reflexivity|].
  rewrite Ascii.eqb_refl; exact IH.
Qed.

Lemma publicHost_http (st : Settings) (cmd : PutObject) :
  startsWith "http" (publicHost st cmd) = true.
Proof.
  unfold publicHost.
  destruct (truthy (host st) && nonEmpty (propStr (host st)));
    [|reflexivity].
  destruct (startsWith "http" (propStr (host st))) eqn:E; simpl;
    [exact E | reflexivity].
Qed.

(** X16.  Whatever the bucket and the host override are, a URL
    returned by [uploadToS3] begins with [http], ends with a slash and
    the key that was sent to the store, and so ends with the extension
    of the file name; the name returned is the file name given. *)
Theorem uploadToS3_url_shape (w : World) (st : Settings) (filename : jsval)
    (folder : prop) (buf : buffer) (name : jsval) (url : string) :
  result (uploadToS3 w st filename folder buf)
    = Returned (RetUpload name url) ->
  exists s key,
    filename = VStr s /\ name = filename
    /\ sentKeys (trace (uploadToS3 w st filename folder buf)) = [key]
    /\ startsWith "http" url = true
    /\ endsWith ("/" ++ key) url = true
    /\ endsWith (extname s) url = true.
Proof.
  intros Hres.
  destruct (uploadToS3_shape w st filename folder buf)
    as [(_ & _ & Hthrown) | (s & -> & Hcases)].
  - rewrite Hthrown in Hres; discriminate.
  - exists s, (s3KeyPath st folder ++ uuid w ++ extname s).
    cbv zeta in Hcases.
    destruct Hcases as [(_ & _ & Hr) | (x & _ & _ & Hr)];
      rewrite Hr in Hres; [|discriminate].
    injection Hres as <- <-.
    repeat split.
    + apply uploadToS3_sentKeys.
    + apply startsWith_app, publicHost_http.
    + apply endsWith_app.
    + unfold putCommand; cbn [Key].
      change (publicHost st ?c ++ "/" ++ ?k)
        with (publicHost st c ++ String "/" k).
      rewrite <- !append_assoc.
      match goal with
      | |- endsWith ?e (?a ++ String "/" ?b) = true =>
          change (a ++ String "/" b) with (a ++ "/" ++ b)
      end.
      rewrite <- !append_assoc; apply endsWith_app.
Qed.

Lemma uploadToS3_url_shape_witness :
  result (uploadToS3 Sample.world (Sample.withHost "cdn.example.org")
            (VStr "photo.png") None [])
  = Returned
      (RetUpload (VStr "photo.png")
         "http://cdn.example.org/uploads/1b9d6bcd-bbfd-4b2d-9b5d-ab8dfbbd4bed.png")
  /\ exists s key,
       VStr "photo.png" = VStr s /\ VStr "photo.png" = VStr "photo.png"
       /\ sentKeys (trace (uploadToS3 Sample.world
                             (Sample.withHost "cdn.example.org")
                             (VStr "photo.png") None [])) = [key]
       /\ startsWith "http"
            "http://cdn.example.org/uploads/1b9d6bcd-bbfd-4b2d-9b5d-ab8dfbbd4bed.png"
          = true
       /\ endsWith ("/" ++ key)
            "http://cdn.example.org/uploads/1b9d6bcd-bbfd-4b2d-9b5d-ab8dfbbd4bed.png"
          = true
       /\ endsWith (extname s)
            "http://cdn.example.org/uploads/1b9d6bcd-bbfd-4b2d-9b5d-ab8dfbbd4bed.png"
          = true.
Proof.
  split; [reflexivity|].
  exact (uploadToS3_url_shape Sample.world (Sample.withHost "cdn.example.org")
           (VStr "photo.png") None [] _ _ eq_refl).
Defined.

(* ------------------------------------------------------------------ *)
(** ** [createError] *)

(** X17.  Whatever was thrown, an error object or any other value,
    [createError] returns an error object whose message begins with
    the plugin identifier and ends with the original message, and logs
    exactly that message; an error object keeps its name.  The prefix
    is added at every call: an error that goes through twice carries it
    twice. *)
Theorem createError_prefixes (err : exn) :
  exists name,
    createError err
    = {| trace := [LogError (idPrefixed (originalMessage err))];
         result := Returned (ErrorObj name (idPrefixed (originalMessage err))) |}
    /\ name = wrappedName err
    /\ startsWith constants_pluginId (idPrefixed (originalMessage err)) = true
    /\ endsWith (originalMessage err) (idPrefixed (originalMessage err)) = true
    /\ result (wrapped <- createError err ;; createError wrapped)
       = Returned (ErrorObj name
                     (idPrefixed (idPrefixed (originalMessage err)))).
Proof.
  exists (wrappedName err).
  split; [|split; [|split; [|split]]].
  - destruct err; reflexivity.
  - reflexivity.
  - apply startsWith_refl_app.
  - unfold idPrefixed.
    change (constants_pluginId ++ " :: " ++ originalMessage err)
      with (constants_pluginId ++ (" :: " ++ originalMessage err)).
    rewrite <- !append_assoc; apply endsWith_app.
  - destruct err; reflexivity.
Qed.

(* ------------------------------------------------------------------ *)
(** ** Names without a usable extension *)

Lemma extnameScan_plain (p : string) (k : nat) (st : scan) :
  String.get 0 p = Some dot ->
  (forall j c, 1 <= j <= k -> String.get j p = Some c ->
               is_dot c = false /\ is_slash c = false) ->
  startDot st = None -> preDotState st = 0%Z ->
  preDotState (extnameScan p (S k) st) = 0%Z.
Proof.
  intros H0; revert st; induction k as [|k IH]; intros st Hplain Hd Hs.
  - simpl; rewrite H0; change (is_slash dot) with false; cbv iota.
    unfold scanChar; change (is_dot dot) with true; cbv iota.
    destruct (endPos st); simpl; rewrite Hd; simpl; exact Hs.
  - change (extnameScan p (S (S k)) st)
      with (match String.get (S k) p with
            | None => st
            | Some c =>
                if is_slash c then
                  if negb (matchedSlash st) then
                    {| startDot := startDot st; startPart := S (S k);
                       endPos := endPos st; matchedSlash := matchedSlash st;
                       preDotState := preDotState st |}
                  else extnameScan p (S k) st
                else extnameScan p (S k) (scanChar (S k) c st)
            end).
    destruct (String.get (S k) p) as [c|] eqn:Hg; [|exact Hs].
    destruct (Hplain (S k) c ltac:(lia) Hg) as (Hnd & Hns); rewrite Hns.
    apply IH.
    + intros j c' Hj; apply Hplain; lia.
    + rewrite scanChar_startDot, Hd, Hnd; reflexivity.
    + unfold scanChar; rewrite Hnd.
      destruct (endPos st); simpl; rewrite Hd; simpl; exact Hs.
Qed.

Lemma plain_get (s : string) (j : nat) (c : ascii) :
  hasDot s = false -> hasSlash s = false -> String.get j s = Some c ->
  is_dot c = false /\ is_slash c = false.
Proof.
  revert j; induction s as [|x s IH]; intros j Hd Hs Hg; [discriminate|].
  simpl in Hd, Hs; apply orb_false_iff in Hd; apply orb_false_iff in Hs.
  destruct j as [|j]; simpl in Hg.
  - injection Hg as <-; tauto.
  - apply (IH j); tauto.
Qed.

(** A name that starts with its only dot, and holds no slash, has no
    extension. *)
Lemma extname_dotfile (s : string) :
  hasDot s = false -> hasSlash s = false -> extname (String dot s) = "".
Proof.
  intros Hd Hs; unfold extname.
  change (String.length (String dot s)) with (S (String.length s)).
  rewrite (extnameScan_plain (String dot s) (String.length s) scanInit
             eq_refl); try reflexivity.
  - destruct (startDot _); [|reflexivity].
    destruct (endPos _); reflexivity.
  - intros j c Hj Hg; destruct j as [|j]; [lia|].
    simpl in Hg; exact (plain_get s j c Hd Hs Hg).
Qed.

(** X18.  With an allow-list configured, a name without a usable
    extension is rejected whatever the list holds: a name without a
    dot, a name that ends in a dot, and a name that starts with its
    only dot (a dot-file such as [.png]). *)
Theorem isExtensionAllowed_no_extension (p : string) (A : list string) :
  A <> [] ->
  hasDot p = false \/ (exists q, p = q ++ ".")
  \/ (exists s, p = String dot s /\ hasDot s = false /\ hasSlash s = false) ->
  isExtensionAllowed (VStr p) A = ret false.
Proof.
  intros HA Hp; rewrite isExtensionAllowed_str; apply ret_inj.
  apply not_true_iff_false; rewrite allowed_bool_spec.
  intros [E | (Hne & Hd & _)]; [contradiction|].
  destruct Hp as [Hp | [(q & ->) | (s & -> & Hs1 & Hs2)]].
  - rewrite (extname_no_dot p Hp) in Hne; apply Hne; reflexivity.
  - destruct (extname_trailing_dot q) as [E | E]; rewrite E in *;
      [apply Hd | apply Hne]; reflexivity.
  - rewrite (extname_dotfile s Hs1 Hs2) in Hne; apply Hne; reflexivity.
Qed.

Lemma isExtensionAllowed_no_extension_witness :
  isExtensionAllowed (VStr ".png") (allowedExtensions Sample.world)
  = ret false
  /\ isExtensionAllowed (VStr "/tmp/upload_3f2a")
       (allowedExtensions Sample.world) = ret false
  /\ isExtensionAllowed (VStr "archive.") (allowedExtensions Sample.world)
     = ret false.
Proof.
  assert (HA : allowedExtensions Sample.world <> []) by discriminate.
  refine (conj _ (conj _ _)).
  - apply (isExtensionAllowed_no_extension ".png" _ HA).
    right; right; exists "png"; repeat split.
  - apply (isExtensionAllowed_no_extension "/tmp/upload_3f2a" _ HA).
    left; reflexivity.
  - apply (isExtensionAllowed_no_extension "archive." _ HA).
    right; left; exists "archive"; reflexivity.
Defined.

(* ------------------------------------------------------------------ *)
(** ** Start-up and the first upload *)

Lemma keep_truthy (incoming current : prop) :
  truthy incoming = true -> keep incoming current = incoming.
Proof. destruct incoming as [[|c s]|]; try discriminate; reflexivity. Qed.

Lemma keep_falsy (incoming current : prop) :
  truthy incoming = false -> keep incoming current = current.
Proof. intros H; unfold keep; rewrite H; reflexivity. Qed.

(** X19.  The stored settings win over the start-up configuration:
    when the six stored fields are all non-empty, the settings after
    [init] are the stored ones, whatever the configuration file held,
    and the first upload is sent to the stored bucket by a client built
    from the stored region and credentials; when no stored field is
    non-empty, [init] leaves the start-up settings as they are. *)
Theorem init_stored_settings_win (w : World) (nconf_s3 : option Settings)
    (filename : string) (folder : prop) (buf : buffer) :
  let st := snd (init w (initialSettings nconf_s3)) in
  ((forall f, truthy (get f (storedSettings w)) = true) ->
   st = storedSettings w
   /\ exists cmd rest,
        trace (uploadToS3 w st (VStr filename) folder buf)
        = S3Send {| clientRegion := region (storedSettings w);
                    clientAccessKeyId := accessKeyId (storedSettings w);
                    clientSecretAccessKey :=
                      secretAccessKey (storedSettings w) |} cmd :: rest
        /\ Bucket cmd = bucket (storedSettings w))
  /\ ((forall f, truthy (get f (storedSettings w)) = false) ->
      st = initialSettings nconf_s3).
Proof.
  cbv zeta; unfold init, reloadSettings; cbn [snd otherPlugin]; split.
  - intros Hall.
    assert (Hst : {| accessKeyId :=
                       keep (accessKeyId (storedSettings w))
                         (accessKeyId (initialSettings nconf_s3));
                     secretAccessKey :=
                       keep (secretAccessKey (storedSettings w))
                         (secretAccessKey (initialSettings nconf_s3));
                     region :=
                       keep (region (storedSettings w))
                         (region (initialSettings nconf_s3));
                     bucket :=
                       keep (bucket (storedSettings w))
                         (bucket (initialSettings nconf_s3));
                     uploadPath :=
                       keep (uploadPath (storedSettings w))
                         (uploadPath (initialSettings nconf_s3));
                     host :=
                       keep (host (storedSettings w))
                         (host (initialSettings nconf_s3)) |}
                  = storedSettings w).
    { rewrite (keep_truthy _ _ (Hall AccessKeyId)),
        (keep_truthy _ _ (Hall SecretAccessKey)),
        (keep_truthy _ _ (Hall Region)), (keep_truthy _ _ (Hall BucketName)),
        (keep_truthy _ _ (Hall UploadPath)), (keep_truthy _ _ (Hall Host)).
      destruct (storedSettings w); reflexivity. }
    rewrite Hst; split; [reflexivity|].
    rewrite uploadToS3_str; cbv zeta.
    destruct (s3Send w _ _); eexists; eexists; split; reflexivity.
  - intros Hnone.
    rewrite (keep_falsy _ _ (Hnone AccessKeyId)),
      (keep_falsy _ _ (Hnone SecretAccessKey)),
      (keep_falsy _ _ (Hnone Region)), (keep_falsy _ _ (Hnone BucketName)),
      (keep_falsy _ _ (Hnone UploadPath)), (keep_falsy _ _ (Hnone Host)).
    destruct (initialSettings nconf_s3); reflexivity.
Qed.

Lemma init_stored_settings_win_witness :
  (forall f, truthy (get f (storedSettings Cases.configured)) = true)
  /\ snd (init Cases.configured (initialSettings None)) = Cases.complete
  /\ snd (init Cases.configured (initialSettings (Some Sample.settings)))
     = Cases.complete.
Proof.
  assert (Hall : forall f,
             truthy (get f (storedSettings Cases.configured)) = true).
  { intros []; reflexivity. }
  refine (conj Hall (conj _ _)).
  - exact (proj1 (proj1 (init_stored_settings_win Cases.configured None
                           "photo.png" None []) Hall)).
  - exact (proj1 (proj1 (init_stored_settings_win Cases.configured
                           (Some Sample.settings) "photo.png" None []) Hall)).
Defined.

(* ------------------------------------------------------------------ *)
(** ** The errors of the remote branch, in order *)

(** X20.  On an image with a url, [uploadImage] answers in this order:
    the file-too-big error when the size check fails; otherwise the
    invalid-file-type error, with the allow-list in its message, when
    the extension of the url is not allowed; otherwise the
    [ReferenceError] of [imageDimension].  The path, the name and the
    original name of the image play no part. *)
Theorem uploadImage_url_errors (w : World) (st : Settings) (i : Image)
    (folder : prop) (u : string) :
  i_url i = Some u -> u <> "" ->
  (checkSize w (i_size i) <> ret tt ->
   uploadImage w st {| image := Some i; i_folder := folder |}
   = fileTooLarge w)
  /\ (checkSize w (i_size i) = ret tt ->
      isExtensionAllowed (VStr u) (allowedExtensions w) = ret false ->
      uploadImage w st {| image := Some i; i_folder := folder |}
      = throw (Error ("[[error:invalid-file-type, "
                      ++ join "&#44; " (allowedExtensions w) ++ "]]")))
  /\ (checkSize w (i_size i) = ret tt ->
      isExtensionAllowed (VStr u) (allowedExtensions w) = ret true ->
      uploadImage w st {| image := Some i; i_folder := folder |}
      = throw (ReferenceError "imageDimension")).
Proof.
  intros Hu Hne; apply nonEmpty_true in Hne.
  unfold uploadImage; cbn [image i_folder]; rewrite Hu; cbn [truthy].
  rewrite Hne; cbn [String.eqb Ascii.eqb Bool.eqb val_of_prop].
  repeat split.
  - intros Hs; rewrite (checkSize_not_ret w _ Hs); reflexivity.
  - intros -> ->; rewrite !bind_ret; reflexivity.
  - intros -> ->; rewrite !bind_ret; reflexivity.
Qed.

Lemma uploadImage_url_errors_witness :
  i_url Sample.remote = Some "https://example.org/pic.png"
  /\ uploadImage Cases.capitals Sample.settings
       {| image := Some Sample.remote; i_folder := None |}
     = throw (Error "[[error:invalid-file-type, .PNG&#44; .JPG]]").
Proof.
  split; [reflexivity|].
  assert (Hne : "https://example.org/pic.png" <> "") by discriminate.
  exact (proj1 (proj2 (uploadImage_url_errors Cases.capitals Sample.settings
                         Sample.remote None "https://example.org/pic.png"
                         eq_refl Hne)) eq_refl eq_refl).
Defined.
